(** * A hardware-bound license key manager (250511-license-key-system/main.go)

    The program issues and verifies licenses: a device identifier is mapped to
    a version-5 UUID under the licensor's namespace, the 16 bytes of that UUID
    are signed with Ed25519, and the base64 text of the signature is the
    license key.  This file embeds the functions of main.go, together with the
    library routines they call, and proves properties of them.

    Conventions.  A Go [string] is a [string] (a sequence of 8-bit characters),
    a [[]byte] is a [list byte], a [uuid.UUID] ([[16]byte]) is a [vec byte 16].
    A Go function returning [(T, error)] returns a pair [T * option error], the
    second component being [None] for [nil].  A function that can panic returns
    in [exec]. *)

From Stdlib Require Import ZArith List Lia.
From Stdlib Require Import Strings.String Strings.Ascii Strings.Byte.
From stdpp Require Import base option list strings gmap vector.

Local Open Scope string_scope.
Local Open Scope list_scope.
Local Open Scope Z_scope.

(** ** Bytes, characters and errors *)

(** The numeric value of a byte, and Go's conversion [byte(z)], which keeps the
    low eight bits. *)
Definition Zb (b : byte) : Z := Z.of_N (Byte.to_N b).

Definition byte_of (z : Z) : byte :=
  default Byte.x00 (Byte.of_N (Z.to_N (z mod 256))).

#[global] Instance byte_eq_dec : EqDecision byte.
Proof.
  intros a b. destruct (Byte.eqb a b) eqn:Hab.
  - left. apply Byte.byte_dec_bl, Hab.
  - right. intros ->. rewrite Byte.byte_dec_lb in Hab; [discriminate|reflexivity].
Defined.

(** A character of a Go string is one byte. *)
Definition Zc (c : ascii) : Z := Z.of_N (N_of_ascii c).

Definition char_of (z : Z) : ascii := ascii_of_N (Z.to_N (z mod 256)).

(** [[]byte(s)] and [string(b)]. *)
Definition bytes_of_string (s : string) : list byte := list_byte_of_string s.

Definition string_of_bytes (b : list byte) : string := string_of_list_byte b.

(** Error values.  The library errors keep the data Go puts in them; an error
    built by [fmt.Errorf("<text>: %v", err)] keeps its text and its cause. *)
Inductive error : Type :=
| hex_InvalidByteError (c : ascii)
| hex_ErrLength
| base64_CorruptInputError
| uuid_invalidLengthError (n : nat)
| uuid_invalidFormat
| uuid_invalidURNPrefix (p : string)
| json_Error (msg : string)
| os_PathError (op path : string)
| io_EOF
| io_ErrUnexpectedEOF
| errors_New (msg : string)
| Errorf (text : string) (cause : error).

(** The outcome of a call that may panic. *)
Inductive exec (A : Type) : Type :=
| Done (a : A)
| Panic (msg : string).
Arguments Done {A} a.
Arguments Panic {A} msg.

#[global] Instance exec_ret : MRet exec := fun _ a => Done a.
#[global] Instance exec_bind : MBind exec := fun _ _ f m =>
  match m with
  | Done a => f a
  | Panic msg => Panic msg
  end.

(** [copy(a[:], l)] into a zeroed array of [n] bytes. *)
Fixpoint array_of (n : nat) (l : list byte) : vec byte n :=
  match n with
  | O => [#]
  | S n' => hd Byte.x00 l ::: array_of n' (tl l)
  end.

(** ** crypto/rand, io

    The random source [rand.Reader] is the list of the bytes it will deliver;
    [io.ReadFull] takes [n] of them, or fails when fewer are left: with
    [io.EOF] when no byte could be read, with [io.ErrUnexpectedEOF] after
    some, but too few. *)
Module rand.

Definition Reader : Type := list byte.

Definition shortRead (r : Reader) : error :=
  if (length r =? 0)%nat then io_EOF else io_ErrUnexpectedEOF.

Definition ReadFull (n : nat) (r : Reader) : (list byte * option error) * Reader :=
  if (length r <? n)%nat then (([], Some (shortRead r)), [])
  else ((take n r, None), drop n r).

End rand.

(** ** encoding/hex *)
Module hex.

(** [hextable[v]], for a nibble [v]. *)
Definition hextable (v : Z) : ascii :=
  nth (Z.to_nat v) (list_ascii_of_string "0123456789abcdef") "0"%char.

(** [hex.EncodeToString]: two lower-case digits per byte, high nibble first. *)
Fixpoint EncodeToString (src : list byte) : string :=
  match src with
  | [] => ""
  | v :: rest =>
      String (hextable (Z.shiftr (Zb v) 4))
        (String (hextable (Z.land (Zb v) 15)) (EncodeToString rest))
  end.

(** The value of a hexadecimal digit, in either case; [None] for any other
    character (the entries above 0x0f of [reverseHexTable]). *)
Definition fromHexChar (c : ascii) : option Z :=
  let n := Zc c in
  if (48 <=? n) && (n <=? 57) then Some (n - 48)
  else if (97 <=? n) && (n <=? 102) then Some (n - 97 + 10)
  else if (65 <=? n) && (n <=? 70) then Some (n - 65 + 10)
  else None.

(** [hex.DecodeString]: the bytes decoded before the first fault, and the
    fault.  A bad character is reported before an odd length. *)
Fixpoint DecodeString (s : string) : list byte * option error :=
  match s with
  | "" => ([], None)
  | String p "" =>
      match fromHexChar p with
      | None => ([], Some (hex_InvalidByteError p))
      | Some _ => ([], Some hex_ErrLength)
      end
  | String p (String q rest) =>
      match fromHexChar p, fromHexChar q with
      | None, _ => ([], Some (hex_InvalidByteError p))
      | Some _, None => ([], Some (hex_InvalidByteError q))
      | Some a, Some b =>
          let '(out, err) := DecodeString rest in
          (byte_of (Z.lor (Z.shiftl a 4) b) :: out, err)
      end
  end.

End hex.

(** ** encoding/base64, [StdEncoding]: the standard alphabet, padded with [=],
    not strict. *)
Module base64.

Definition encodeStd : string :=
  "ABCDEFGHIJKLMNOPQRSTUVWXYZabcdefghijklmnopqrstuvwxyz0123456789+/".

Definition padChar : ascii := "="%char.

(** [enc.encode[v]], for a sextet [v]. *)
Definition encode (v : Z) : ascii :=
  nth (Z.to_nat v) (list_ascii_of_string encodeStd) "A"%char.

(** [enc.decodeMap[c]]: the position of [c] in the alphabet, [None] standing
    for the table's 0xff. *)
Fixpoint index_of (c : ascii) (l : list ascii) (i : Z) : option Z :=
  match l with
  | [] => None
  | x :: l' => if Ascii.eqb x c then Some i else index_of c l' (i + 1)
  end.

Definition decodeMap (c : ascii) : option Z :=
  index_of c (list_ascii_of_string encodeStd) 0.

(** [StdEncoding.EncodeToString]: three bytes give four characters; a last
    group of one or two bytes is padded to four characters. *)
Fixpoint EncodeToString (src : list byte) : string :=
  match src with
  | [] => ""
  | [a] =>
      let val := Z.shiftl (Zb a) 16 in
      String (encode (Z.land (Z.shiftr val 18) 63))
        (String (encode (Z.land (Z.shiftr val 12) 63))
           (String padChar (String padChar "")))
  | [a; b] =>
      let val := Z.lor (Z.shiftl (Zb a) 16) (Z.shiftl (Zb b) 8) in
      String (encode (Z.land (Z.shiftr val 18) 63))
        (String (encode (Z.land (Z.shiftr val 12) 63))
           (String (encode (Z.land (Z.shiftr val 6) 63))
              (String padChar "")))
  | a :: b :: c :: rest =>
      let val :=
        Z.lor (Z.lor (Z.shiftl (Zb a) 16) (Z.shiftl (Zb b) 8)) (Zb c) in
      String (encode (Z.land (Z.shiftr val 18) 63))
        (String (encode (Z.land (Z.shiftr val 12) 63))
           (String (encode (Z.land (Z.shiftr val 6) 63))
              (String (encode (Z.land val 63)) (EncodeToString rest))))
  end.

Definition isNewline (c : ascii) : bool :=
  Ascii.eqb c "010"%char || Ascii.eqb c "013"%char.

(** The loops that skip [\n] and [\r]. *)
Fixpoint skipNewlines (s : string) : string :=
  match s with
  | String c rest => if isNewline c then skipNewlines rest else s
  | "" => ""
  end.

(** The bytes a quantum of [dlen] sextets stands for: [dlen - 1] of the three
    bytes of [dbuf[0]<<18 | dbuf[1]<<12 | dbuf[2]<<6 | dbuf[3]]. *)
Definition quantumBytes (dbuf : list Z) : list byte :=
  let d i := nth i dbuf 0 in
  let val :=
    Z.lor (Z.lor (Z.lor (Z.shiftl (d 0%nat) 18) (Z.shiftl (d 1%nat) 12))
             (Z.shiftl (d 2%nat) 6)) (d 3%nat) in
  take (length dbuf - 1)
    [byte_of (Z.shiftr val 16); byte_of (Z.shiftr val 8); byte_of val].

(** After the padding of the last quantum only newlines may follow. *)
Definition finish (rest : string) (dbuf : list Z) : list byte * option error :=
  (quantumBytes dbuf,
   match skipNewlines rest with
   | "" => None
   | String _ _ => Some base64_CorruptInputError
   end).

(** [Decode], as the loop of [decodeQuantum]: [dbuf] holds the sextets read
    for the current quantum.  Newlines are ignored wherever they stand; any
    other character outside the alphabet must be padding, in the third or
    fourth place of the last quantum.  The result is the bytes decoded before
    the fault, and the fault (Go's [CorruptInputError], without its offset). *)
Fixpoint decode (src : string) (dbuf : list Z) : list byte * option error :=
  match src with
  | "" =>
      match dbuf with
      | [] => ([], None)
      | _ :: _ => ([], Some base64_CorruptInputError)
      end
  | String c rest =>
      match decodeMap c with
      | Some v =>
          if (length dbuf =? 3)%nat then
            let '(out, err) := decode rest [] in
            (quantumBytes (dbuf ++ [v]) ++ out, err)
          else decode rest (dbuf ++ [v])
      | None =>
          if isNewline c then decode rest dbuf
          else if negb (Ascii.eqb c padChar) then
            ([], Some base64_CorruptInputError)
          else
            match length dbuf with
            | 0%nat | 1%nat => ([], Some base64_CorruptInputError)
            | 2%nat =>
                match skipNewlines rest with
                | "" => ([], Some base64_CorruptInputError)
                | String c' rest' =>
                    if negb (Ascii.eqb c' padChar) then
                      ([], Some base64_CorruptInputError)
                    else finish rest' dbuf
                end
            | _ => finish rest dbuf
            end
      end
  end.

Definition DecodeString (s : string) : list byte * option error := decode s [].

End base64.

(** ** crypto/sha1 *)
Module sha1.

Definition u32 (x : Z) : Z := x mod 2 ^ 32.

(** [bits.RotateLeft32]. *)
Definition rotl (x k : Z) : Z :=
  u32 (Z.lor (Z.shiftl x k) (Z.shiftr x (32 - k))).

(** The bytes [checkSum] appends: 0x80, zeros up to 56 modulo 64, and the
    length in bits as a big-endian 64-bit number. *)
Definition be_bytes (n : nat) (x : Z) : list byte :=
  map (fun i => byte_of (Z.shiftr x (8 * Z.of_nat i))) (rev (seq 0 n)).

Definition padding (len : Z) : list byte :=
  let t := if len mod 64 <? 56 then 56 - len mod 64 else 64 + 56 - len mod 64 in
  Byte.x80 :: repeat Byte.x00 (Z.to_nat (t - 1))
    ++ be_bytes 8 ((len * 8) mod 2 ^ 64).

(** A big-endian 32-bit word. *)
Definition be32 (b : list byte) : Z :=
  let d i := Zb (nth i b Byte.x00) in
  Z.lor (Z.lor (Z.lor (Z.shiftl (d 0%nat) 24) (Z.shiftl (d 1%nat) 16))
           (Z.shiftl (d 2%nat) 8)) (d 3%nat).

Fixpoint words (n : nat) (p : list byte) : list Z :=
  match n with
  | O => []
  | S n' => be32 p :: words n' (drop 4 p)
  end.

(** The message schedule, most recent word first: word [i >= 16] is
    [rotl(w[i-3] ^ w[i-8] ^ w[i-14] ^ w[i-16], 1)].  (The Go code keeps the
    last sixteen words in a ring; the words are the same.) *)
Fixpoint schedule (n : nat) (rw : list Z) : list Z :=
  match n with
  | O => rw
  | S n' =>
      let w i := nth i rw 0 in
      schedule n'
        (rotl (Z.lxor (Z.lxor (Z.lxor (w 2%nat) (w 7%nat)) (w 13%nat)) (w 15%nat)) 1
           :: rw)
  end.

Definition K0 : Z := 0x5A827999.
Definition K1 : Z := 0x6ED9EBA1.
Definition K2 : Z := 0x8F1BBCDC.
Definition K3 : Z := 0xCA62C1D6.

Definition state : Type := Z * Z * Z * Z * Z.

(** One of the eighty steps, for round [i] and schedule word [wi]. *)
Definition step (s : state) (iw : nat * Z) : state :=
  let '(a, b, c, d, e) := s in
  let '(i, wi) := iw in
  let '(f, k) :=
    if (i <? 20)%nat then
      (Z.lor (Z.land b c) (Z.land (Z.lxor b (2 ^ 32 - 1)) d), K0)
    else if (i <? 40)%nat then (Z.lxor (Z.lxor b c) d, K1)
    else if (i <? 60)%nat then
      (Z.lor (Z.land (Z.lor b c) d) (Z.land b c), K2)
    else (Z.lxor (Z.lxor b c) d, K3) in
  (u32 (rotl a 5 + f + e + wi + k), a, rotl b 30, c, d).

(** [blockGeneric] on one 64-byte chunk. *)
Definition block (h : state) (p : list byte) : state :=
  let w := rev (schedule 64 (rev (words 16 p))) in
  let '(a, b, c, d, e) := fold_left step (combine (seq 0 80) w) h in
  let '(h0, h1, h2, h3, h4) := h in
  (u32 (h0 + a), u32 (h1 + b), u32 (h2 + c), u32 (h3 + d), u32 (h4 + e)).

Fixpoint blocks (n : nat) (h : state) (p : list byte) : state :=
  match n with
  | O => h
  | S n' => blocks n' (block h (take 64 p)) (drop 64 p)
  end.

Definition init : state :=
  (0x67452301, 0xEFCDAB89, 0x98BADCFE, 0x10325476, 0xC3D2E1F0).

(** The 20-byte digest of [data] ([h.Write(data); h.Sum(nil)]). *)
Definition Sum (data : list byte) : list byte :=
  let p := data ++ padding (Z.of_nat (length data)) in
  let '(h0, h1, h2, h3, h4) := blocks (length p / 64) init p in
  be_bytes 4 h0 ++ be_bytes 4 h1 ++ be_bytes 4 h2 ++ be_bytes 4 h3 ++ be_bytes 4 h4.

End sha1.

(** ** strings *)
Module strings.

(** [strings.ReplaceAll(s, old, new)] for a one-character [old], the only
    form the program uses: every occurrence of the character is replaced. *)
Fixpoint ReplaceAll (s : string) (old : ascii) (new : string) : string :=
  match s with
  | "" => ""
  | String c rest =>
      if Ascii.eqb c old then new +:+ ReplaceAll rest old new
      else String c (ReplaceAll rest old new)
  end.

(** ASCII lower case, and [strings.EqualFold] on ASCII text. *)
Definition lower (c : ascii) : ascii :=
  if (65 <=? Zc c) && (Zc c <=? 90) then char_of (Zc c + 32) else c.

Definition EqualFold (s t : string) : bool :=
  bool_decide (map lower (list_ascii_of_string s) = map lower (list_ascii_of_string t)).

End strings.

(** ** github.com/google/uuid *)
Module uuid.

(** [type UUID [16]byte]. *)
Definition UUID : Type := vec byte 16.

(** The zero UUID, [uuid.Nil]. *)
Definition Nil : UUID := array_of 16 [].

(** [NewHash(h, space, data, version)] with SHA-1: the first 16 bytes of the
    digest of [space ++ data], with the version and the RFC 4122 variant set. *)
Definition NewHash (space : UUID) (data : list byte) (version : Z) : UUID :=
  let s := sha1.Sum (vec_to_list space ++ data) in
  let u := array_of 16 s in
  let u :=
    vinsert 6%fin
      (byte_of (Z.lor (Z.land (Zb (u !!! 6%fin)) 0x0f)
                  (Z.shiftl (Z.land version 0xf) 4))) u in
  vinsert 8%fin (byte_of (Z.lor (Z.land (Zb (u !!! 8%fin)) 0x3f) 0x80)) u.

Definition NewSHA1 (space : UUID) (data : list byte) : UUID :=
  NewHash space data 5.

(** [UUID.String]: xxxxxxxx-xxxx-xxxx-xxxx-xxxxxxxxxxxx, lower case. *)
Definition String (u : UUID) : string :=
  let b := vec_to_list u in
  hex.EncodeToString (take 4 b) +:+ "-"
  +:+ hex.EncodeToString (take 2 (drop 4 b)) +:+ "-"
  +:+ hex.EncodeToString (take 2 (drop 6 b)) +:+ "-"
  +:+ hex.EncodeToString (take 2 (drop 8 b)) +:+ "-"
  +:+ hex.EncodeToString (drop 10 b).

(** [xvalues[c]]: the value of a hexadecimal digit, 255 for another byte. *)
Definition xvalues (c : ascii) : Z :=
  let n := Zc c in
  if (48 <=? n) && (n <=? 57) then n - 48
  else if (65 <=? n) && (n <=? 70) then n - 65 + 10
  else if (97 <=? n) && (n <=? 102) then n - 97 + 10
  else 255.

Definition xtob (x1 x2 : ascii) : byte * bool :=
  let b1 := xvalues x1 in
  let b2 := xvalues x2 in
  (byte_of (Z.lor (Z.shiftl b1 4) b2), negb (b1 =? 255) && negb (b2 =? 255)).

(** [s[i]], for an index in range. *)
Definition at_ (s : string) (i : nat) : ascii :=
  nth i (list_ascii_of_string s) Ascii.zero.

(** The loop [uuid[i], ok = xtob(s[x], s[x+1])] over the offsets [xs]: the
    bytes read before the first bad pair, and whether all pairs were good. *)
Fixpoint xtobs (s : string) (xs : list nat) : list byte * bool :=
  match xs with
  | [] => ([], true)
  | x :: xs' =>
      let '(v, ok) := xtob (at_ s x) (at_ s (x + 1)) in
      if ok then let '(vs, ok') := xtobs s xs' in (v :: vs, ok')
      else ([], false)
  end.

(** The body of [Parse] for the 36-character form. *)
Definition parseHyphenated (s : string) : UUID * option error :=
  if negb (Ascii.eqb (at_ s 8) "-") || negb (Ascii.eqb (at_ s 13) "-")
     || negb (Ascii.eqb (at_ s 18) "-") || negb (Ascii.eqb (at_ s 23) "-")
  then (Nil, Some uuid_invalidFormat)
  else
    let '(vs, ok) :=
      xtobs s [0; 2; 4; 6; 9; 11; 14; 16; 19; 21; 24; 26; 28; 30; 32; 34]%nat in
    (array_of 16 vs, if ok then None else Some uuid_invalidFormat).

(** [uuid.Parse]: the standard form, the same after [urn:uuid:], the same
    between two characters that are not looked at, or 32 digits. *)
Definition Parse (s : string) : UUID * option error :=
  let n := String.length s in
  if (n =? 36)%nat then parseHyphenated s
  else if (n =? 36 + 9)%nat then
    if negb (strings.EqualFold (substring 0 9 s) "urn:uuid:") then
      (Nil, Some (uuid_invalidURNPrefix (substring 0 9 s)))
    else parseHyphenated (substring 9 36 s)
  else if (n =? 36 + 2)%nat then parseHyphenated (substring 1 37 s)
  else if (n =? 32)%nat then
    let '(vs, ok) :=
      xtobs s (map (fun i => i * 2)%nat (seq 0 16)) in
    (array_of 16 vs, if ok then None else Some uuid_invalidFormat)
  else (Nil, Some (uuid_invalidLengthError n)).

(** [uuid.NewRandom]: sixteen random bytes with version 4 and the variant. *)
Definition NewRandom (r : rand.Reader) : (UUID * option error) * rand.Reader :=
  let '((b, err), r') := rand.ReadFull 16 r in
  match err with
  | Some e => ((Nil, Some e), r')
  | None =>
      let u := array_of 16 b in
      let u :=
        vinsert 6%fin (byte_of (Z.lor (Z.land (Zb (u !!! 6%fin)) 0x0f) 0x40)) u in
      ((vinsert 8%fin (byte_of (Z.lor (Z.land (Zb (u !!! 8%fin)) 0x3f) 0x80)) u,
        None), r')
  end.

End uuid.

(** ** crypto/ed25519

    The signature arithmetic is the library's; the program relies on the
    package's contract only.  [Scheme] names the three computations, and
    [SchemeLaws] states what the package documents of them.  What the package
    does around them - the sizes it insists on, with a panic, and the layout
    of a private key - is defined here in full. *)
Module ed25519.

Definition PublicKeySize : nat := 32.
Definition PrivateKeySize : nat := 64.
Definition SignatureSize : nat := 64.
Definition SeedSize : nat := 32.

Class Scheme : Type := {
  (** the encoded public point of a 32-byte seed *)
  publicKey : list byte -> list byte;
  (** the signature of a message under a 64-byte private key *)
  sign : list byte -> list byte -> list byte;
  (** whether a signature of a message is valid for a 32-byte public key *)
  verify : list byte -> list byte -> list byte -> bool
}.

Class SchemeLaws (E : Scheme) : Prop := {
  publicKey_length : forall seed,
    length seed = SeedSize -> length (publicKey seed) = PublicKeySize;
  sign_length : forall priv msg,
    length priv = PrivateKeySize -> length (sign priv msg) = SignatureSize;
  verify_sign : forall seed msg,
    length seed = SeedSize ->
    verify (publicKey seed) msg (sign (seed ++ publicKey seed) msg) = true;
  verify_length : forall pub msg sig,
    length sig <> SignatureSize -> verify pub msg sig = false
}.

Section Package.
Context {E : Scheme}.

(** [NewKeyFromSeed]: the private key is the seed followed by the public key. *)
Definition NewKeyFromSeed (seed : list byte) : exec (list byte) :=
  if bool_decide (length seed = SeedSize) then Done (seed ++ publicKey seed)
  else Panic "ed25519: bad seed length".

(** [PrivateKey.Public]: a copy of [priv[32:]] into 32 zeroed bytes; the slice
    expression panics on a key shorter than 32 bytes. *)
Definition Public (priv : list byte) : exec (list byte) :=
  if (length priv <? 32)%nat then Panic "slice bounds out of range"
  else Done (vec_to_list (array_of PublicKeySize (drop 32 priv))).

(** [GenerateKey(nil)]: a seed from the random source. *)
Definition GenerateKey (r : rand.Reader)
  : exec ((list byte * list byte * option error) * rand.Reader) :=
  let '((seed, err), r') := rand.ReadFull SeedSize r in
  match err with
  | Some e => Done (([], [], Some e), r')
  | None =>
      privateKey ← NewKeyFromSeed seed;
      Done ((vec_to_list (array_of PublicKeySize (drop 32 privateKey)),
             privateKey, None), r')
  end.

Definition Sign (privateKey message : list byte) : exec (list byte) :=
  if bool_decide (length privateKey = PrivateKeySize)
  then Done (sign privateKey message)
  else Panic "ed25519: bad private key length".

Definition Verify (publicKey message sig : list byte) : exec bool :=
  if bool_decide (length publicKey = PublicKeySize)
  then Done (verify publicKey message sig)
  else Panic "ed25519: bad public key length".

End Package.
End ed25519.

(** ** encoding/json

    The program marshals and unmarshals two structs of string fields.  The
    codec is the library's; [Codec T] is what the program calls at a struct
    type [T]. *)
Module json.

Class Codec (T : Type) : Type := {
  MarshalIndent : T -> string -> string -> list byte * option error;
  (** [Unmarshal(data, &v)]: the value of [v] after the call, and the error *)
  Unmarshal : list byte -> T -> T * option error
}.

End json.

(** ** os, path/filepath *)
Module os.

Class System : Type := {
  (** the state of the file system *)
  FS : Type;
  ReadFile : string -> FS -> list byte * option error;
  (** the error of [os.Stat], [None] when the file exists *)
  Stat : string -> FS -> option error;
  WriteFile : string -> list byte -> Z -> FS -> FS * option error;
  MkdirAll : string -> Z -> FS -> FS * option error;
  (** [filepath.Dir] *)
  Dir : string -> string
}.

(** A file written without error is read back as written. *)
Class SystemLaws (S : System) : Prop := {
  ReadFile_WriteFile : forall name data perm fs fs',
    WriteFile name data perm fs = (fs', None) ->
    ReadFile name fs' = (data, None)
}.

End os.

(** ** net: the interfaces of the machine *)
Module net.

Record Interface : Type := {
  Name : string;
  HardwareAddr : list byte;
  Flags : Z
}.

Definition FlagUp : Z := 1.
Definition FlagLoopback : Z := 4.

(** [HardwareAddr.String]: the bytes in hexadecimal, separated by colons. *)
Fixpoint HardwareAddr_String (a : list byte) : string :=
  match a with
  | [] => ""
  | [b] => hex.EncodeToString [b]
  | b :: rest => hex.EncodeToString [b] +:+ ":" +:+ HardwareAddr_String rest
  end.

End net.

(** ** main.go *)

(** What the program prints: a call of [fmt.Printf] or [fmt.Println] with its
    arguments. *)
Inductive arg : Type :=
| ArgS (s : string)
| ArgE (e : error)
| ArgU (u : uuid.UUID).

Inductive printed : Type :=
| Printf (format : string) (args : list arg)
| Println (s : string).

(** [LicenseData]: the license information to be saved. *)
Module LicenseData.
Record t : Type := {
  DeviceID : string;
  DeviceUUID : string;
  LicenseKey : string;
  PublicKey : string;
  PrivateKey : string;
  NamespaceID : string
}.
Definition zero : t := Build_t "" "" "" "" "" "".
End LicenseData.

(** [Config]: the key pair for signing. *)
Module Config.
Record t : Type := {
  PrivateKey : list byte;
  PublicKey : list byte;
  NamespaceID : uuid.UUID
}.
End Config.

(** The struct [SaveConfig] writes and [LoadConfig] reads. *)
Module configData.
Record t : Type := {
  PrivateKey : string;
  PublicKey : string;
  NamespaceID : string
}.
Definition zero : t := Build_t "" "" "".
End configData.

Section Main.
Context {E : ed25519.Scheme} {S : os.System}.
Context {JC : json.Codec configData.t} {JL : json.Codec LicenseData.t}.

(** [SaveConfig] saves the configuration to a file (modes 0755 and 0600 are
    493 and 384). *)
Definition SaveConfig (config : Config.t) (filename : string) (fs : os.FS)
  : os.FS * option error :=
  let data :=
    {| configData.PrivateKey := hex.EncodeToString (Config.PrivateKey config);
       configData.PublicKey := hex.EncodeToString (Config.PublicKey config);
       configData.NamespaceID := uuid.String (Config.NamespaceID config) |} in
  let '(jsonData, err) := json.MarshalIndent data "" "  " in
  match err with
  | Some e => (fs, Some (Errorf "failed to marshal config" e))
  | None =>
      let dir := os.Dir filename in
      let '(fs, err) := os.MkdirAll dir 493 fs in
      match err with
      | Some e => (fs, Some (Errorf "failed to create directory" e))
      | None => os.WriteFile filename jsonData 384 fs
      end
  end.

(** [LoadConfig] loads the configuration from a file. *)
Definition LoadConfig (filename : string) (fs : os.FS)
  : exec (option Config.t * option error) :=
  let '(data, err) := os.ReadFile filename fs in
  match err with
  | Some e => Done (None, Some (Errorf "failed to read config file" e))
  | None =>
  let '(configData, err) := json.Unmarshal data configData.zero in
  match err with
  | Some e => Done (None, Some (Errorf "failed to parse config file" e))
  | None =>
  let '(privKeyBytes, err) := hex.DecodeString (configData.PrivateKey configData) in
  match err with
  | Some e => Done (None, Some (Errorf "invalid private key format" e))
  | None =>
  let '(namespaceID, err) := uuid.Parse (configData.NamespaceID configData) in
  match err with
  | Some e => Done (None, Some (Errorf "invalid namespace UUID" e))
  | None =>
      let privKey := privKeyBytes in
      pubKey ← ed25519.Public privKey;
      Done (Some {| Config.PrivateKey := privKey;
                    Config.PublicKey := pubKey;
                    Config.NamespaceID := namespaceID |}, None)
  end end end end.

(** [GenerateKeyPair] creates a new ED25519 key pair and a random namespace. *)
Definition GenerateKeyPair (r : rand.Reader)
  : exec ((option Config.t * option error) * rand.Reader) :=
  '((pubKey, privKey, err), r) ← ed25519.GenerateKey r;
  match err with
  | Some e => Done ((None, Some (Errorf "failed to generate key pair" e)), r)
  | None =>
      let '((namespaceID, err), r) := uuid.NewRandom r in
      match err with
      | Some e =>
          Done ((None, Some (Errorf "failed to generate namespace UUID" e)), r)
      | None =>
          Done ((Some {| Config.PrivateKey := privKey;
                         Config.PublicKey := pubKey;
                         Config.NamespaceID := namespaceID |}, None), r)
      end
  end.

(** [GetBRLANMacAddress]: the address of the interface named br-lan, else of
    the first interface that is up, is not a loopback and has an address.
    [ifs] is what [net.Interfaces()] returns. *)
Definition GetBRLANMacAddress (ifs : list net.Interface * option error)
  : string * option error :=
  let '(interfaces, err) := ifs in
  match err with
  | Some e => ("", Some (Errorf "failed to get network interfaces" e))
  | None =>
      match List.find (fun iface => String.eqb (net.Name iface) "br-lan") interfaces with
      | Some iface => (net.HardwareAddr_String (net.HardwareAddr iface), None)
      | None =>
          match
            List.find
              (fun iface =>
                 negb (Z.land (net.Flags iface) net.FlagUp =? 0)
                 && (Z.land (net.Flags iface) net.FlagLoopback =? 0)
                 && (0 <? length (net.HardwareAddr iface))%nat)
              interfaces
          with
          | Some iface => (net.HardwareAddr_String (net.HardwareAddr iface), None)
          | None =>
              ("", Some (errors_New
                     "could not find BR-LAN interface or suitable network interface"))
          end
      end
  end.

(** [MacAddressToUUIDv5] converts a MAC address to a UUIDv5 using the
    namespace, after removing the colons. *)
Definition MacAddressToUUIDv5 (macAddress : string) (namespaceID : uuid.UUID)
  : uuid.UUID * option error :=
  let macAddress := strings.ReplaceAll macAddress ":" "" in
  (uuid.NewSHA1 namespaceID (bytes_of_string macAddress), None).

(** [GenerateLicenseKey] signs the UUID bytes and encodes the signature. *)
Definition GenerateLicenseKey (config : Config.t) (id : uuid.UUID)
  : exec (string * option error) :=
  signature ← ed25519.Sign (Config.PrivateKey config) (vec_to_list id);
  let licenseKey := base64.EncodeToString signature in
  Done (licenseKey, None).

(** [SaveLicense] and [LoadLicense]. *)
Definition SaveLicense (licenseData : LicenseData.t) (filename : string)
  (fs : os.FS) : os.FS * option error :=
  let '(jsonData, err) := json.MarshalIndent licenseData "" "  " in
  match err with
  | Some e => (fs, Some (Errorf "failed to marshal license data" e))
  | None =>
      let dir := os.Dir filename in
      let '(fs, err) := os.MkdirAll dir 493 fs in
      match err with
      | Some e => (fs, Some (Errorf "failed to create directory" e))
      | None => os.WriteFile filename jsonData 384 fs
      end
  end.

Definition LoadLicense (filename : string) (fs : os.FS)
  : option LicenseData.t * option error :=
  let '(data, err) := os.ReadFile filename fs in
  match err with
  | Some e => (None, Some (Errorf "failed to read license file" e))
  | None =>
      let '(licenseData, err) := json.Unmarshal data LicenseData.zero in
      match err with
      | Some e => (None, Some (Errorf "failed to parse license file" e))
      | None => (Some licenseData, None)
      end
  end.

(** [VerifyLicense] checks if a license key is valid for a given UUID. *)
Definition VerifyLicense (publicKeyHex idStr licenseKey namespaceIDStr : string)
  : exec (bool * option error) :=
  let '(publicKeyBytes, err) := hex.DecodeString publicKeyHex in
  match err with
  | Some e => Done (false, Some (Errorf "invalid public key format" e))
  | None =>
  let publicKey := publicKeyBytes in
  let '(id, err) := uuid.Parse idStr in
  match err with
  | Some e => Done (false, Some (Errorf "invalid UUID format" e))
  | None =>
  let '(signature, err) := base64.DecodeString licenseKey in
  match err with
  | Some e => Done (false, Some (Errorf "invalid license key format" e))
  | None =>
      valid ← ed25519.Verify publicKey (vec_to_list id) signature;
      Done (valid, None)
  end end end.

(** [GenerateNamespaceUUID] generates a new random UUID to use as a namespace. *)
Definition GenerateNamespaceUUID (r : rand.Reader)
  : (uuid.UUID * option error) * rand.Reader :=
  uuid.NewRandom r.

(** [commandInitConfig], after the flags are parsed: [configPtr] is the value
    of -config.  The result is what was printed, the file system and the
    random source afterwards. *)
Definition commandInitConfig (configPtr : string) (r : rand.Reader) (fs : os.FS)
  : exec (list printed * os.FS * rand.Reader) :=
  match os.Stat configPtr fs with
  | None =>
      Done ([Printf "Configuration file %s already exists. Delete it first if you want to reinitialize.\n"
               [ArgS configPtr]], fs, r)
  | Some _ =>
  '((config, err), r) ← GenerateKeyPair r;
  match err, config with
  | Some e, _ => Done ([Printf "Error generating configuration: %v\n" [ArgE e]], fs, r)
  | None, None => Panic "nil pointer dereference"
  | None, Some config =>
  let '(fs, err) := SaveConfig config configPtr fs in
  match err with
  | Some e => Done ([Printf "Error saving configuration: %v\n" [ArgE e]], fs, r)
  | None =>
      Done ([Println "License issuer configuration initialized successfully.";
             Printf "Configuration saved to: %s\n" [ArgS configPtr];
             Printf "Namespace UUID: %s\n" [ArgU (Config.NamespaceID config)];
             Printf "Public Key: %s\n"
               [ArgS (hex.EncodeToString (Config.PublicKey config))];
             Println "\nKeep your private key secure. It will be needed to generate valid license keys."],
            fs, r)
  end end end.

(** [commandGenerateNamespace]. *)
Definition commandGenerateNamespace (r : rand.Reader)
  : list printed * rand.Reader :=
  let '((namespaceID, err), r) := GenerateNamespaceUUID r in
  match err with
  | Some e => ([Printf "Error generating namespace UUID: %v\n" [ArgE e]], r)
  | None =>
      ([Println "Generated new namespace UUID:";
        Println (uuid.String namespaceID)], r)
  end.

(** [commandGenerateLicense], after the flags are parsed: [configPtr],
    [macPtr] and [outputPtr] are the values of -config, -mac and -output.
    The result is what was printed and the file system afterwards. *)
Definition commandGenerateLicense (configPtr macPtr outputPtr : string)
  (ifs : list net.Interface * option error) (fs : os.FS)
  : exec (list printed * os.FS) :=
  '(config, err) ← LoadConfig configPtr fs;
  match err, config with
  | Some e, _ => Done ([Printf "Error loading configuration: %v\n" [ArgE e]], fs)
  | None, None => Panic "nil pointer dereference"
  | None, Some config =>
  let '(macAddress, err) :=
    if negb (String.eqb macPtr "") then (macPtr, None)
    else GetBRLANMacAddress ifs in
  match err with
  | Some e => Done ([Printf "Error getting MAC address: %v\n" [ArgE e]], fs)
  | None =>
  let '(deviceUUID, err) :=
    MacAddressToUUIDv5 macAddress (Config.NamespaceID config) in
  match err with
  | Some e => Done ([Printf "Error generating UUID: %v\n" [ArgE e]], fs)
  | None =>
  '(licenseKey, err) ← GenerateLicenseKey config deviceUUID;
  match err with
  | Some e => Done ([Printf "Error generating license key: %v\n" [ArgE e]], fs)
  | None =>
  let licenseData :=
    {| LicenseData.DeviceID := macAddress;
       LicenseData.DeviceUUID := uuid.String deviceUUID;
       LicenseData.LicenseKey := licenseKey;
       LicenseData.PublicKey := hex.EncodeToString (Config.PublicKey config);
       LicenseData.PrivateKey := "";
       LicenseData.NamespaceID := uuid.String (Config.NamespaceID config) |} in
  let '(fs, err) := SaveLicense licenseData outputPtr fs in
  match err with
  | Some e => Done ([Printf "Error saving license: %v\n" [ArgE e]], fs)
  | None =>
      Done ([Println "License generated successfully:";
             Printf "  Device ID: %s\n" [ArgS macAddress];
             Printf "  Device UUID: %s\n" [ArgU deviceUUID];
             Printf "  License Key: %s\n" [ArgS licenseKey];
             Printf "  License file saved to: %s\n" [ArgS outputPtr]], fs)
  end end end end end.

(** [commandVerifyLicense], after the flags are parsed: [licenseFilePtr] and
    [macPtr] are the values of -license and -mac. *)
Definition commandVerifyLicense (licenseFilePtr macPtr : string)
  (ifs : list net.Interface * option error) (fs : os.FS)
  : exec (list printed) :=
  let '(licenseData, err) := LoadLicense licenseFilePtr fs in
  match err, licenseData with
  | Some e, _ => Done [Printf "Error loading license: %v\n" [ArgE e]]
  | None, None => Panic "nil pointer dereference"
  | None, Some licenseData =>
  let '(macAddress, err) :=
    if negb (String.eqb macPtr "") then (macPtr, None)
    else GetBRLANMacAddress ifs in
  match err with
  | Some e => Done [Printf "Error getting MAC address: %v\n" [ArgE e]]
  | None =>
  let '(namespaceID, err) := uuid.Parse (LicenseData.NamespaceID licenseData) in
  match err with
  | Some e => Done [Printf "Error parsing namespace UUID: %v\n" [ArgE e]]
  | None =>
  let '(deviceUUID, err) := MacAddressToUUIDv5 macAddress namespaceID in
  match err with
  | Some e => Done [Printf "Error generating UUID: %v\n" [ArgE e]]
  | None =>
  '(valid, err) ←
    VerifyLicense (LicenseData.PublicKey licenseData) (uuid.String deviceUUID)
      (LicenseData.LicenseKey licenseData) (LicenseData.NamespaceID licenseData);
  match err with
  | Some e => Done [Printf "Error verifying license: %v\n" [ArgE e]]
  | None =>
      Done [Printf "MAC Address: %s\n" [ArgS macAddress];
            Printf "Device UUID: %s\n" [ArgU deviceUUID];
            if (valid : bool) then Println "License verification: VALID"
            else Println "License verification: INVALID"]
  end end end end end.

End Main.

(** ** The contract of the JSON codec

    A string of printable ASCII characters other than the quote, the
    backslash and the three characters that [Marshal] escapes for HTML is
    written as it stands, and is read back as it was written. *)
Definition plain_char (c : ascii) : bool :=
  (32 <=? Zc c) && (Zc c <? 127)
  && negb (existsb (Ascii.eqb c) ["034"; "\"; "<"; ">"; "&"]%char).

Definition plain (s : string) : bool := forallb plain_char (list_ascii_of_string s).

Definition plain_config (d : configData.t) : Prop :=
  plain (configData.PrivateKey d) = true
  /\ plain (configData.PublicKey d) = true
  /\ plain (configData.NamespaceID d) = true.

Class ConfigCodecLaws (JC : json.Codec configData.t) : Prop := {
  Unmarshal_MarshalIndent : forall d : configData.t,
    plain_config d ->
    exists data,
      json.MarshalIndent d "" "  " = (data, None)
      /\ json.Unmarshal data configData.zero = (d, None)
}.

Definition plain_license (d : LicenseData.t) : Prop :=
  plain (LicenseData.DeviceID d) = true
  /\ plain (LicenseData.DeviceUUID d) = true
  /\ plain (LicenseData.LicenseKey d) = true
  /\ plain (LicenseData.PublicKey d) = true
  /\ plain (LicenseData.PrivateKey d) = true
  /\ plain (LicenseData.NamespaceID d) = true.

(** The same for [LicenseData]; its [private_key] is left out of the text when
    empty, and is then read back empty. *)
Class LicenseCodecLaws (JL : json.Codec LicenseData.t) : Prop := {
  Unmarshal_MarshalIndent_license : forall d : LicenseData.t,
    plain_license d ->
    exists data,
      json.MarshalIndent d "" "  " = (data, None)
      /\ json.Unmarshal data LicenseData.zero = (d, None)
}.

(** ** A license key with one bit changed

    Bit [i] of a string is bit [i mod 8] of its character [i / 8], the least
    significant bit of a character being its bit 0. *)
Definition flip_char (j : nat) (c : ascii) : ascii :=
  char_of (Z.lxor (Zc c) (2 ^ Z.of_nat j)).

Fixpoint flip_bit (i : nat) (s : string) : string :=
  match s with
  | "" => ""
  | String c rest =>
      if (i <? 8)%nat then String (flip_char i c) rest
      else String c (flip_bit (i - 8) rest)
  end.

(** ** In-memory implementations of the three interfaces

    They let the program be run on concrete inputs, and show that the laws
    above can be met.  [Fake.scheme] is no signature scheme in the
    cryptographic sense: its verification key is the seed itself. *)
Module Fake.

(** *** A keyed tag in place of the signature *)
Definition tag (key msg : list byte) : list byte :=
  let d := sha1.Sum (key ++ msg) in
  vec_to_list (array_of 64 (d ++ d ++ d ++ d)).

Definition scheme : ed25519.Scheme := {|
  ed25519.publicKey seed := vec_to_list (array_of 32 seed);
  ed25519.sign priv msg := tag (take 32 priv) msg;
  ed25519.verify pub msg sig := bool_decide (sig = tag pub msg)
|}.

(** *** Files in a finite map *)
Fixpoint beforeLastSlash (s : string) : option string :=
  match s with
  | "" => None
  | String c rest =>
      match beforeLastSlash rest with
      | Some d => Some (String c d)
      | None => if Ascii.eqb c "/" then Some "" else None
      end
  end.

Definition system : os.System := {|
  os.FS := gmap string (list byte);
  os.ReadFile name fs :=
    match fs !! name with
    | Some data => (data, None)
    | None => ([], Some (os_PathError "open" name))
    end;
  os.Stat name fs :=
    match fs !! name with
    | Some _ => None
    | None => Some (os_PathError "stat" name)
    end;
  os.WriteFile name data perm fs :=
    if String.eqb name "" then (fs, Some (os_PathError "open" name))
    else (<[name := data]> fs, None);
  os.MkdirAll dir perm fs := (fs, None);
  os.Dir path :=
    match beforeLastSlash path with
    | None => "."
    | Some "" => "/"
    | Some d => d
    end
|}.

(** *** JSON objects of plain strings *)
Definition dquote : ascii := "034"%char.
Definition newline : string := String "010"%char "".

Definition quote (s : string) : string := String dquote (s +:+ String dquote "").

Fixpoint members (prefix indent : string) (kvs : list (string * string)) : string :=
  match kvs with
  | [] => ""
  | [(k, v)] => prefix +:+ indent +:+ quote k +:+ ": " +:+ quote v +:+ newline
  | (k, v) :: rest =>
      prefix +:+ indent +:+ quote k +:+ ": " +:+ quote v +:+ "," +:+ newline
      +:+ members prefix indent rest
  end.

(** The text [MarshalIndent] gives for a struct with the fields [kvs]. *)
Definition object (prefix indent : string) (kvs : list (string * string)) : string :=
  match kvs with
  | [] => "{}"
  | _ => "{" +:+ newline +:+ members prefix indent kvs +:+ prefix +:+ "}"
  end.

Definition marshal (prefix indent : string) (kvs : list (string * string))
  : list byte * option error :=
  if forallb (fun kv => plain (snd kv)) kvs
  then (bytes_of_string (object prefix indent kvs), None)
  else ([], Some (json_Error "unsupported string")).

(** The reader: one pass over the text.  The state says what is expected
    next; [kvs] are the members read so far. *)
Inductive pstate : Type :=
| PStart
| PFirst
| PKey (k : string)
| PColon (k : string)
| PValue (k : string)
| PVal (k v : string)
| PNext
| PMember
| PEnd.

Definition isSpace (c : ascii) : bool :=
  existsb (Ascii.eqb c) [" "; "009"; "010"; "013"]%char.

Fixpoint read (s : string) (st : pstate) (kvs : list (string * string))
  : option (list (string * string)) :=
  match s with
  | "" => match st with PEnd => Some kvs | _ => None end
  | String c rest =>
      match st with
      | PStart =>
          if isSpace c then read rest PStart kvs
          else if Ascii.eqb c "{" then read rest PFirst kvs else None
      | PFirst =>
          if isSpace c then read rest PFirst kvs
          else if Ascii.eqb c dquote then read rest (PKey "") kvs
          else if Ascii.eqb c "}" then read rest PEnd kvs else None
      | PKey k =>
          if Ascii.eqb c dquote then read rest (PColon k) kvs
          else if plain_char c then read rest (PKey (k +:+ String c "")) kvs
          else None
      | PColon k =>
          if isSpace c then read rest (PColon k) kvs
          else if Ascii.eqb c ":" then read rest (PValue k) kvs else None
      | PValue k =>
          if isSpace c then read rest (PValue k) kvs
          else if Ascii.eqb c dquote then read rest (PVal k "") kvs else None
      | PVal k v =>
          if Ascii.eqb c dquote then read rest PNext (kvs ++ [(k, v)])
          else if plain_char c then read rest (PVal k (v +:+ String c "")) kvs
          else None
      | PNext =>
          if isSpace c then read rest PNext kvs
          else if Ascii.eqb c "," then read rest PMember kvs
          else if Ascii.eqb c "}" then read rest PEnd kvs else None
      | PMember =>
          if isSpace c then read rest PMember kvs
          else if Ascii.eqb c dquote then read rest (PKey "") kvs else None
      | PEnd => if isSpace c then read rest PEnd kvs else None
      end
  end.

Definition unmarshal {T : Type} (set : T -> string * string -> T)
  (data : list byte) (v : T) : T * option error :=
  match read (string_of_bytes data) PStart [] with
  | None => (v, Some (json_Error "unsupported text"))
  | Some kvs => (fold_left set kvs v, None)
  end.

Definition set_config (d : configData.t) (kv : string * string) : configData.t :=
  let '(k, v) := kv in
  if strings.EqualFold k "private_key" then
    {| configData.PrivateKey := v;
       configData.PublicKey := configData.PublicKey d;
       configData.NamespaceID := configData.NamespaceID d |}
  else if strings.EqualFold k "public_key" then
    {| configData.PrivateKey := configData.PrivateKey d;
       configData.PublicKey := v;
       configData.NamespaceID := configData.NamespaceID d |}
  else if strings.EqualFold k "namespace_id" then
    {| configData.PrivateKey := configData.PrivateKey d;
       configData.PublicKey := configData.PublicKey d;
       configData.NamespaceID := v |}
  else d.

Definition config_codec : json.Codec configData.t := {|
  json.MarshalIndent d prefix indent :=
    marshal prefix indent
      [("private_key", configData.PrivateKey d);
       ("public_key", configData.PublicKey d);
       ("namespace_id", configData.NamespaceID d)];
  json.Unmarshal := unmarshal set_config
|}.

Definition set_license (d : LicenseData.t) (kv : string * string) : LicenseData.t :=
  let '(k, v) := kv in
  let pick name old := if strings.EqualFold k name then v else old in
  {| LicenseData.DeviceID := pick "device_id" (LicenseData.DeviceID d);
     LicenseData.DeviceUUID := pick "device_uuid" (LicenseData.DeviceUUID d);
     LicenseData.LicenseKey := pick "license_key" (LicenseData.LicenseKey d);
     LicenseData.PublicKey := pick "public_key" (LicenseData.PublicKey d);
     LicenseData.PrivateKey := pick "private_key" (LicenseData.PrivateKey d);
     LicenseData.NamespaceID := pick "namespace_id" (LicenseData.NamespaceID d) |}.

(** [private_key] is marked omitempty. *)
Definition license_codec : json.Codec LicenseData.t := {|
  json.MarshalIndent d prefix indent :=
    marshal prefix indent
      ([("device_id", LicenseData.DeviceID d);
        ("device_uuid", LicenseData.DeviceUUID d);
        ("license_key", LicenseData.LicenseKey d);
        ("public_key", LicenseData.PublicKey d)]
       ++ (if String.eqb (LicenseData.PrivateKey d) "" then []
           else [("private_key", LicenseData.PrivateKey d)])
       ++ [("namespace_id", LicenseData.NamespaceID d)]);
  json.Unmarshal := unmarshal set_license
|}.

End Fake.

(** ** A sample run: a key pair drawn from fixed bytes, with the in-memory
    implementations *)
Module Sample.

Definition entropy : list byte :=
  map (fun i => byte_of (Z.of_nat i * 7 + 3)) (seq 0 48).

(** The key pair [GenerateKeyPair] makes of [entropy]. *)
Definition config : Config.t :=
  Eval vm_compute in
    match GenerateKeyPair (E := Fake.scheme) entropy with
    | Done (Some c, _, _) => c
    | _ => {| Config.PrivateKey := []; Config.PublicKey := [];
              Config.NamespaceID := uuid.Nil |}
    end.

Definition mac : string := "AA:BB:CC:DD:EE:FF".

Definition id : uuid.UUID :=
  Eval vm_compute in (MacAddressToUUIDv5 mac (Config.NamespaceID config)).1.

(** The license key [GenerateLicenseKey] gives for [mac]. *)
Definition licenseKey : string :=
  Eval vm_compute in
    match GenerateLicenseKey (E := Fake.scheme) config id with
    | Done (key, _) => key
    | Panic _ => ""
    end.

(** The license record issued for [mac], and the file system after the key
    pair is saved and the license is generated. *)
Definition license : LicenseData.t :=
  {| LicenseData.DeviceID := mac;
     LicenseData.DeviceUUID := uuid.String id;
     LicenseData.LicenseKey := licenseKey;
     LicenseData.PublicKey := hex.EncodeToString (Config.PublicKey config);
     LicenseData.PrivateKey := "";
     LicenseData.NamespaceID := uuid.String (Config.NamespaceID config) |}.

(** The file system after the key pair is saved. *)
Definition saved_fs : gmap string (list byte) :=
  (SaveConfig (S := Fake.system) (JC := Fake.config_codec) config "licensor.json" ∅).1.

(** A configuration record whose public_key is not that of its private key,
    and a file system holding it. *)
Definition forged : configData.t :=
  {| configData.PrivateKey := hex.EncodeToString (Config.PrivateKey config);
     configData.PublicKey := hex.EncodeToString (repeat Byte.x00 32);
     configData.NamespaceID := uuid.String (Config.NamespaceID config) |}.

Definition forged_fs : gmap string (list byte) :=
  {[ "licensor.json" :=
       (json.MarshalIndent (Codec := Fake.config_codec) forged "" "  ").1 ]}.

Definition licensed_fs : gmap string (list byte) :=
  match
    commandGenerateLicense (E := Fake.scheme) (S := Fake.system)
      (JC := Fake.config_codec) (JL := Fake.license_codec)
      "licensor.json" mac "license.json" ([], None) saved_fs
  with
  | Done (_, fs) => fs
  | Panic _ => ∅
  end.

End Sample.

(** ** Predicates of the statements *)

(** A generated key pair: the private key is a 32-byte seed followed by the
    public key of that seed. *)
Definition keypair_of_seed {E : ed25519.Scheme} (seed : list byte) (k : Config.t) : Prop :=
  length seed = 32%nat
  /\ Config.PrivateKey k = seed ++ ed25519.publicKey seed
  /\ Config.PublicKey k = ed25519.publicKey seed.

(** The key pair invariant: the public key is [PrivateKey.Public()]. *)
Definition valid_config (k : Config.t) : Prop :=
  ed25519.Public (Config.PrivateKey k) = Done (Config.PublicKey k).

(** The members of an object are plain strings. *)
Definition plain_members (kvs : list (string * string)) : Prop :=
  Forall (fun kv => plain kv.1 = true /\ plain kv.2 = true) kvs.

(** Whether an error is one of the malformed-field errors of [VerifyLicense]
    and [LoadConfig]: a text, and a cause from the hex, base64, UUID or JSON
    decoder. *)
Definition FormatError (e : error) : bool :=
  match e with
  | Errorf _ (hex_InvalidByteError _ | hex_ErrLength | base64_CorruptInputError
              | uuid_invalidLengthError _ | uuid_invalidFormat
              | uuid_invalidURNPrefix _ | json_Error _) => true
  | _ => false
  end.

(** The two kinds of error of [hex.DecodeString]. *)
Definition hex_error (e : error) : Prop :=
  (exists c, e = hex_InvalidByteError c) \/ e = hex_ErrLength.

(** A text of 7-bit characters; a text with a character whose top bit is set. *)
Definition low (s : string) : bool :=
  forallb (fun c => Zc c <? 128) (list_ascii_of_string s).

Definition has_high (s : string) : bool :=
  existsb (fun c => 128 <=? Zc c) (list_ascii_of_string s).


(** ** The normal form of an identifier *)

(** The bytes of an identifier other than colons, in their order. *)
Definition without_colons (s : string) : list byte :=
  filter (fun b => b <> Byte.x3a) (bytes_of_string s).

(** ** Predicates of the further properties *)

(** The text of a UUID of version [v] and the RFC 4122 variant: its character
    14 is the digit [v], its character 19 one of 8, 9, a, b. *)
Definition versioned (v : Z) (u : uuid.UUID) : Prop :=
  uuid.at_ (uuid.String u) 14 = char_of (48 + v)
  /\ In (uuid.at_ (uuid.String u) 19) ["8"; "9"; "a"; "b"]%char.

(** ** Damaged files, for the edge cases *)
Module Edge.

Definition config_file (privateKey : string) : gmap string (list byte) :=
  {[ "licensor.json" :=
       (json.MarshalIndent (Codec := Fake.config_codec)
          {| configData.PrivateKey := privateKey;
             configData.PublicKey := "";
             configData.NamespaceID := uuid.String (Config.NamespaceID Sample.config) |}
          "" "  ").1 ]}.

(** A configuration whose private_key is empty, and one whose private_key is
    the 32-byte seed alone. *)
Definition no_private_key_fs : gmap string (list byte) := config_file "".

Definition seed_only_fs : gmap string (list byte) :=
  config_file (hex.EncodeToString (take 32 (Config.PrivateKey Sample.config))).

(** The sample license with a one-byte public key. *)
Definition short_key_license : LicenseData.t :=
  {| LicenseData.DeviceID := LicenseData.DeviceID Sample.license;
     LicenseData.DeviceUUID := LicenseData.DeviceUUID Sample.license;
     LicenseData.LicenseKey := LicenseData.LicenseKey Sample.license;
     LicenseData.PublicKey := "00";
     LicenseData.PrivateKey := "";
     LicenseData.NamespaceID := LicenseData.NamespaceID Sample.license |}.

Definition short_key_license_fs : gmap string (list byte) :=
  {[ "license.json" :=
       (json.MarshalIndent (Codec := Fake.license_codec) short_key_license "" "  ").1 ]}.

End Edge.

(** The test of the second loop of [GetBRLANMacAddress]: the interface is up,
    is not a loopback and has a hardware address. *)
Definition usable (iface : net.Interface) : bool :=
  negb (Z.land (net.Flags iface) net.FlagUp =? 0)
  && (Z.land (net.Flags iface) net.FlagLoopback =? 0)
  && (0 <? length (net.HardwareAddr iface))%nat.

Definition named_br_lan (iface : net.Interface) : bool :=
  String.eqb (net.Name iface) "br-lan".

(** A bit of the second character of the last base64 group of a 64-byte
    signature, whose change gives a character of the alphabet with the same
    two leading bits: the four trailing bits are not used by the decoder.
    (The character is A, Q, g or w; it becomes C, S, o or 7.) *)
Definition spare_bit (b : byte) : nat :=
  match (Zb b mod 4)%Z with
  | 0%Z | 1%Z => 1%nat
  | 2%Z => 3%nat
  | _ => 6%nat
  end.
Lemma byte_of_Zb (b : byte) : byte_of (Zb b) = b.
Proof. destruct b; reflexivity. Qed.

Lemma hex_digits_of_byte (v : byte) :
  hex.fromHexChar (hex.hextable (Z.shiftr (Zb v) 4)) = Some (Z.shiftr (Zb v) 4)
  /\ hex.fromHexChar (hex.hextable (Z.land (Zb v) 15)) = Some (Z.land (Zb v) 15)
  /\ byte_of (Z.lor (Z.shiftl (Z.shiftr (Zb v) 4) 4) (Z.land (Zb v) 15)) = v.
Proof. destruct v; repeat split; reflexivity. Qed.

Lemma hex_Decode_Encode (src : list byte) :
  hex.DecodeString (hex.EncodeToString src) = (src, None).
Proof.
  induction src as [|v rest IH]; [reflexivity|].
  destruct (hex_digits_of_byte v) as (Hhi & Hlo & Hv).
  cbn [hex.EncodeToString hex.DecodeString].
  rewrite Hhi, Hlo, IH, Hv. reflexivity.
Qed.

(** ** Arrays *)

Lemma array_of_to_list (n : nat) (v : vec byte n) :
  array_of n (vec_to_list v) = v.
Proof. induction v as [|b n v IH]; cbn; [reflexivity|]. rewrite IH. reflexivity. Qed.

Lemma array_of_list (n : nat) (l : list byte) :
  length l = n -> vec_to_list (array_of n l) = l.
Proof.
  revert l. induction n as [|n IH]; intros [|b l] Hl; cbn in *; try discriminate; [reflexivity|].
  rewrite IH by lia. reflexivity.
Qed.

(** ** UUID text *)

Lemma xtob_hex (b : byte) :
  uuid.xtob (hex.hextable (Z.shiftr (Zb b) 4)) (hex.hextable (Z.land (Zb b) 15))
  = (b, true).
Proof. destruct b; reflexivity. Qed.

Lemma uuid_Parse_String (u : uuid.UUID) : uuid.Parse (uuid.String u) = (u, None).
Proof.
  unfold uuid.UUID in u.
  inv_vec u. intros.
  cbv [uuid.String vec_to_list Vector.to_list take drop hex.EncodeToString
       uuid.Parse uuid.parseHyphenated uuid.xtobs String.length String.app
       Vector.fold_right Vector.t_rect Vector.t_rec
       Nat.eqb uuid.at_ list_ascii_of_string nth Nat.add].
  rewrite !xtob_hex.
  reflexivity.
Qed.

(** ** Byte arithmetic *)

Lemma Zb_range (b : byte) : 0 <= Zb b < 256.
Proof. unfold Zb. pose proof (Byte.to_N_bounded b). lia. Qed.

Lemma byte_of_eq (z : Z) (b : byte) : z mod 256 = Zb b -> byte_of z = b.
Proof.
  intros H. transitivity (byte_of (Zb b)); [|apply byte_of_Zb].
  unfold byte_of. rewrite H, (Z.mod_small (Zb b)) by apply Zb_range. reflexivity.
Qed.

Lemma land_shiftl_low (a b n : Z) :
  0 <= n -> 0 <= b < 2 ^ n -> Z.land (Z.shiftl a n) b = 0.
Proof.
  intros Hn Hb. apply Z.bits_inj'. intros k Hk.
  rewrite Z.land_spec, Z.bits_0.
  destruct (Z.ltb_spec k n) as [Hlt|Hge].
  - rewrite Z.shiftl_spec_low by lia. reflexivity.
  - replace b with (b mod 2 ^ n) by (apply Z.mod_small; lia).
    rewrite Z.mod_pow2_bits_high by lia. apply andb_false_r.
Qed.

Lemma lor_shiftl (a b n : Z) :
  0 <= n -> 0 <= b < 2 ^ n -> Z.lor (Z.shiftl a n) b = a * 2 ^ n + b.
Proof.
  intros Hn Hb. pose proof (Z.add_lor_land (Z.shiftl a n) b) as H.
  rewrite land_shiftl_low in H by assumption.
  rewrite Z.shiftl_mul_pow2 in * by assumption. lia.
Qed.

Lemma lor_add (hi lo n : Z) :
  0 <= n -> 0 <= lo < 2 ^ n -> hi mod 2 ^ n = 0 -> Z.lor hi lo = hi + lo.
Proof.
  intros Hn Hlo Hhi.
  assert (hi = Z.shiftl (hi / 2 ^ n) n) as ->.
  { rewrite Z.shiftl_mul_pow2 by assumption.
    pose proof (Z.div_mod hi (2 ^ n)) as H. lia. }
  rewrite lor_shiftl by assumption.
  rewrite Z.shiftl_mul_pow2 by assumption. reflexivity.
Qed.

(** [lia] after the powers of two at literal exponents are computed. *)
Ltac pow_lia :=
  repeat match goal with
    | |- context [2 ^ ?n] =>
        let v := eval cbv in (2 ^ n) in change (2 ^ n) with v
    end;
  Z.div_mod_to_equations; lia.

(** The 24-bit value of three bytes, and of four sextets. *)
Lemma val_bytes (a b c : Z) :
  0 <= b < 256 -> 0 <= c < 256 ->
  Z.lor (Z.lor (Z.shiftl a 16) (Z.shiftl b 8)) c = a * 65536 + b * 256 + c.
Proof.
  intros Hb Hc. rewrite !Z.shiftl_mul_pow2 by lia.
  rewrite (lor_add (a * 2 ^ 16) _ 16) by pow_lia.
  rewrite (lor_add _ c 8) by pow_lia. pow_lia.
Qed.

Lemma val_sextets (s0 s1 s2 s3 : Z) :
  0 <= s1 < 64 -> 0 <= s2 < 64 -> 0 <= s3 < 64 ->
  Z.lor (Z.lor (Z.lor (Z.shiftl s0 18) (Z.shiftl s1 12)) (Z.shiftl s2 6)) s3
  = s0 * 262144 + s1 * 4096 + s2 * 64 + s3.
Proof.
  intros H1 H2 H3. rewrite !Z.shiftl_mul_pow2 by lia.
  rewrite (lor_add (s0 * 2 ^ 18) _ 18) by pow_lia.
  rewrite (lor_add _ (s2 * 2 ^ 6) 12) by pow_lia.
  rewrite (lor_add _ s3 6) by pow_lia. pow_lia.
Qed.

Lemma sextet_range (x k : Z) : 0 <= Z.land (Z.shiftr x k) 63 < 64.
Proof.
  change 63 with (Z.ones 6). rewrite Z.land_ones by lia.
  apply Z.mod_pos_bound. lia.
Qed.

Lemma sextet_eq (x k : Z) :
  0 <= k -> Z.land (Z.shiftr x k) 63 = (x / 2 ^ k) mod 64.
Proof.
  intros Hk. change 63 with (Z.ones 6). rewrite Z.land_ones by lia.
  rewrite Z.shiftr_div_pow2 by lia. reflexivity.
Qed.

Lemma decodeMap_encode (v : Z) :
  0 <= v < 64 -> base64.decodeMap (base64.encode v) = Some v.
Proof.
  intros Hv. rewrite <- (Z2Nat.id v) by lia.
  assert (Z.to_nat v < 64)%nat as Hn by lia.
  generalize dependent (Z.to_nat v). clear. intros n Hn.
  do 64 (destruct n as [|n]; [reflexivity|]). lia.
Qed.

Lemma land63 (x : Z) : Z.land x 63 = x mod 64.
Proof. change 63 with (Z.ones 6). rewrite Z.land_ones by lia. reflexivity. Qed.

Lemma land63_range (x : Z) : 0 <= Z.land x 63 < 64.
Proof. rewrite land63. apply Z.mod_pos_bound. lia. Qed.

(** ** Base64: a quantum is read back as it was written *)

Section Quantum.
Variables a b c : byte.

Lemma quantum3 :
  let val := Z.lor (Z.lor (Z.shiftl (Zb a) 16) (Z.shiftl (Zb b) 8)) (Zb c) in
  base64.quantumBytes
    [Z.land (Z.shiftr val 18) 63; Z.land (Z.shiftr val 12) 63;
     Z.land (Z.shiftr val 6) 63; Z.land val 63]
  = [a; b; c].
Proof.
  intros val. unfold base64.quantumBytes. cbn [nth length take Nat.sub].
  pose proof (Zb_range a) as Ha. pose proof (Zb_range b) as Hb.
  pose proof (Zb_range c) as Hc.
  rewrite val_sextets by apply land63_range.
  subst val. rewrite val_bytes by assumption.
  rewrite !land63, !Z.shiftr_div_pow2 by lia.
  repeat f_equal; apply byte_of_eq; pow_lia.
Qed.

Lemma quantum2 :
  let val := Z.lor (Z.shiftl (Zb a) 16) (Z.shiftl (Zb b) 8) in
  base64.quantumBytes
    [Z.land (Z.shiftr val 18) 63; Z.land (Z.shiftr val 12) 63;
     Z.land (Z.shiftr val 6) 63]
  = [a; b].
Proof.
  intros val. unfold base64.quantumBytes. cbn [nth length take Nat.sub].
  pose proof (Zb_range a) as Ha. pose proof (Zb_range b) as Hb.
  rewrite val_sextets by first [apply land63_range | lia].
  subst val. rewrite <- (Z.lor_0_r (Z.lor _ _)), val_bytes by lia.
  rewrite !land63, !Z.shiftr_div_pow2 by lia.
  repeat f_equal; apply byte_of_eq; pow_lia.
Qed.

Lemma quantum1 :
  let val := Z.shiftl (Zb a) 16 in
  base64.quantumBytes
    [Z.land (Z.shiftr val 18) 63; Z.land (Z.shiftr val 12) 63]
  = [a].
Proof.
  intros val. unfold base64.quantumBytes. cbn [nth length take Nat.sub].
  pose proof (Zb_range a) as Ha.
  rewrite val_sextets by first [apply land63_range | lia].
  subst val. rewrite Z.shiftl_mul_pow2 by lia.
  rewrite !land63, !Z.shiftr_div_pow2 by lia.
  repeat f_equal; apply byte_of_eq; pow_lia.
Qed.

End Quantum.

Lemma append_String (c : ascii) (s1 s2 : string) :
  String c s1 +:+ s2 = String c (s1 +:+ s2).
Proof. reflexivity. Qed.

Lemma append_empty (s : string) : "" +:+ s = s.
Proof. reflexivity. Qed.

Lemma base64_decode_group (a b c : byte) (s : string) :
  let val := Z.lor (Z.lor (Z.shiftl (Zb a) 16) (Z.shiftl (Zb b) 8)) (Zb c) in
  base64.decode
    (String (base64.encode (Z.land (Z.shiftr val 18) 63))
       (String (base64.encode (Z.land (Z.shiftr val 12) 63))
          (String (base64.encode (Z.land (Z.shiftr val 6) 63))
             (String (base64.encode (Z.land val 63)) s)))) []
  = (a :: b :: c :: fst (base64.decode s []), snd (base64.decode s [])).
Proof.
  intros val. cbn [base64.decode].
  repeat (rewrite ?decodeMap_encode by apply land63_range;
          cbn [length app Nat.eqb]).
  subst val. rewrite quantum3.
  destruct (base64.decode s []). reflexivity.
Qed.

(** The data of whole groups of three bytes can be followed by any text. *)
Lemma base64_decode_groups (src : list byte) (s : string) :
  (length src mod 3 = 0)%nat ->
  base64.decode (base64.EncodeToString src +:+ s) []
  = (src ++ fst (base64.decode s []), snd (base64.decode s [])).
Proof.
  remember (length src) as n eqn:Hn. revert src Hn.
  induction n as [n IH] using lt_wf_ind. intros src Hn Hmod.
  destruct src as [|a [|b [|c rest]]]; cbn [length] in Hn; subst n.
  - change (base64.EncodeToString [] +:+ s) with s.
    destruct (base64.decode s []); reflexivity.
  - discriminate.
  - discriminate.
  - change (base64.EncodeToString (a :: b :: c :: rest) +:+ s)
      with (base64.EncodeToString [a; b; c] +:+ (base64.EncodeToString rest +:+ s)).
    cbn [base64.EncodeToString]. rewrite !append_String, append_empty.
    rewrite base64_decode_group.
    rewrite (IH (length rest)); [reflexivity|lia|reflexivity|].
    replace (S (S (S (length rest)))) with (length rest + 1 * 3)%nat in Hmod by lia.
    rewrite Nat.Div0.mod_add in Hmod. exact Hmod.
Qed.

Lemma base64_Decode_Encode (src : list byte) :
  base64.DecodeString (base64.EncodeToString src) = (src, None).
Proof.
  unfold base64.DecodeString.
  remember (length src) as n eqn:Hn. revert src Hn.
  induction n as [n IH] using lt_wf_ind. intros src Hn.
  destruct src as [|a [|b [|c rest]]]; cbn [length] in Hn; subst n.
  - reflexivity.
  - cbn [base64.EncodeToString base64.decode].
    rewrite !decodeMap_encode by apply land63_range.
    cbn -[base64.quantumBytes Z.land Z.shiftr Z.shiftl Z.lor Zb].
    unfold base64.finish. rewrite quantum1. reflexivity.
  - cbn [base64.EncodeToString base64.decode].
    repeat (rewrite ?decodeMap_encode by apply land63_range;
            cbn [length app Nat.eqb]).
    cbn -[base64.quantumBytes Z.land Z.shiftr Z.shiftl Z.lor Zb].
    unfold base64.finish. rewrite quantum2. reflexivity.
  - cbn [base64.EncodeToString].
    rewrite base64_decode_group.
    rewrite (IH (length rest)); [reflexivity|lia|reflexivity].
Qed.

(** ** Key pairs *)

Lemma ReadFull_inv (n : nat) (r r' : rand.Reader) (b : list byte) (err : option error) :
  rand.ReadFull n r = ((b, err), r') ->
  err = None -> length b = n /\ r = b ++ r'.
Proof.
  unfold rand.ReadFull. destruct (Nat.ltb_spec (length r) n) as [Hlt|Hge].
  - intros [= <- <- <-]. discriminate.
  - intros [= <- <- <-] _. split.
    + rewrite length_take. lia.
    + symmetry. apply take_drop.
Qed.

Lemma GenerateKeyPair_inv {E : ed25519.Scheme} {L : ed25519.SchemeLaws E}
  (r r' : rand.Reader) (k : Config.t) (err : option error) :
  GenerateKeyPair r = Done ((Some k, err), r') ->
  exists seed, keypair_of_seed seed k.
Proof.
  unfold GenerateKeyPair, ed25519.GenerateKey.
  destruct (rand.ReadFull ed25519.SeedSize r) as [[seed e] r1] eqn:Hread.
  destruct e as [e|]; [cbn [mbind exec_bind]; intros H; congruence|].
  destruct (ReadFull_inv _ _ _ _ _ Hread eq_refl) as [Hlen _].
  unfold ed25519.NewKeyFromSeed. rewrite bool_decide_eq_true_2 by exact Hlen.
  cbn [mbind exec_bind].
  destruct (uuid.NewRandom r1) as [[ns e] r2]. destruct e as [e|]; [intros H; congruence|].
  intros H.
  assert (k = {| Config.PrivateKey := seed ++ ed25519.publicKey seed;
                 Config.PublicKey :=
                   vec_to_list (array_of ed25519.PublicKeySize
                                  (drop 32 (seed ++ ed25519.publicKey seed)));
                 Config.NamespaceID := ns |}) as -> by congruence.
  exists seed. split; [exact Hlen|]. split; [reflexivity|].
  cbn [Config.PublicKey]. rewrite drop_app_length' by (symmetry; exact Hlen).
  apply array_of_list. apply ed25519.publicKey_length, Hlen.
Qed.

Lemma keypair_sizes {E : ed25519.Scheme} {L : ed25519.SchemeLaws E}
  (seed : list byte) (k : Config.t) :
  keypair_of_seed seed k ->
  length (Config.PrivateKey k) = 64%nat /\ length (Config.PublicKey k) = 32%nat.
Proof.
  intros (Hlen & -> & ->).
  pose proof (ed25519.publicKey_length seed Hlen) as Hpk.
  rewrite length_app. unfold ed25519.PublicKeySize in Hpk. lia.
Qed.

(** ** Issuing and verifying *)

(** What [VerifyLicense] returns once its three texts are decoded. *)
Lemma VerifyLicense_decoded {E : ed25519.Scheme}
  (publicKeyHex idStr licenseKey namespaceIDStr : string)
  (publicKey signature : list byte) (id : uuid.UUID) :
  hex.DecodeString publicKeyHex = (publicKey, None) ->
  uuid.Parse idStr = (id, None) ->
  base64.DecodeString licenseKey = (signature, None) ->
  VerifyLicense publicKeyHex idStr licenseKey namespaceIDStr
  = (valid ← ed25519.Verify publicKey (vec_to_list id) signature; Done (valid, None)).
Proof. intros Hpk Hid Hsig. unfold VerifyLicense. rewrite Hpk, Hid, Hsig. reflexivity. Qed.

(** C1. For every generated key pair [k] and every raw identifier [r]:
    deriving the identity of [r] under the namespace of [k], signing its 16
    bytes with the private key of [k] and encoding the signature in base64
    gives a license key that [VerifyLicense] accepts, with the hex text of
    the public key of [k] and the identity derived again from [r]. *)
Theorem issue_then_verify {E : ed25519.Scheme} {L : ed25519.SchemeLaws E}
  (rnd rnd' : rand.Reader) (k : Config.t) (r : string) :
  GenerateKeyPair rnd = Done ((Some k, None), rnd') ->
  let id := (MacAddressToUUIDv5 r (Config.NamespaceID k)).1 in
  exists licenseKey,
    GenerateLicenseKey k id = Done (licenseKey, None)
    /\ VerifyLicense (hex.EncodeToString (Config.PublicKey k))
         (uuid.String (MacAddressToUUIDv5 r (Config.NamespaceID k)).1)
         licenseKey (uuid.String (Config.NamespaceID k))
       = Done (true, None).
Proof.
  intros Hgen id.
  destruct (GenerateKeyPair_inv _ _ _ _ Hgen) as [seed Hk].
  destruct (keypair_sizes _ _ Hk) as [Hpriv Hpub].
  destruct Hk as (Hseed & Hprivk & Hpubk).
  exists (base64.EncodeToString (ed25519.sign (Config.PrivateKey k) (vec_to_list id))).
  split.
  - unfold GenerateLicenseKey, ed25519.Sign.
    rewrite bool_decide_eq_true_2 by exact Hpriv. reflexivity.
  - erewrite VerifyLicense_decoded;
      [|apply hex_Decode_Encode|apply uuid_Parse_String|apply base64_Decode_Encode].
    unfold ed25519.Verify. rewrite bool_decide_eq_true_2 by exact Hpub.
    fold id. rewrite Hprivk, Hpubk, ed25519.verify_sign by exact Hseed.
    reflexivity.
Qed.

(** ** The in-memory implementations meet the laws *)

Lemma Fake_tag_length (key msg : list byte) : length (Fake.tag key msg) = 64%nat.
Proof. unfold Fake.tag. apply length_vec_to_list. Qed.

Lemma Fake_scheme_laws : ed25519.SchemeLaws Fake.scheme.
Proof.
  split.
  - intros seed _. apply length_vec_to_list.
  - intros priv msg _. apply Fake_tag_length.
  - intros seed msg Hseed.
    change (bool_decide
              (Fake.tag (take 32 (seed ++ vec_to_list (array_of 32 seed))) msg
               = Fake.tag (vec_to_list (array_of 32 seed)) msg) = true).
    rewrite take_app_length' by (symmetry; exact Hseed).
    rewrite array_of_list by exact Hseed.
    apply bool_decide_eq_true_2. reflexivity.
  - intros pub msg sig Hsig.
    change (bool_decide (sig = Fake.tag pub msg) = false).
    apply bool_decide_eq_false_2. intros ->. apply Hsig, Fake_tag_length.
Qed.

Lemma Fake_system_laws : os.SystemLaws Fake.system.
Proof.
  split. intros name data perm.
  change (@os.FS Fake.system) with (gmap string (list byte)). intros fs fs'.
  change (@os.WriteFile Fake.system name data perm fs)
    with (if String.eqb name "" then (fs, Some (os_PathError "open" name))
          else (<[name := data]> fs, None) : gmap string (list byte) * option error).
  change (@os.ReadFile Fake.system name fs')
    with (match (fs' : gmap string (list byte)) !! name with
          | Some d => (d, None)
          | None => ([], Some (os_PathError "open" name))
          end).
  destruct (String.eqb name ""); intros H; [congruence|].
  assert (fs' = <[name := data]> fs) as -> by congruence.
  rewrite lookup_insert_eq. reflexivity.
Qed.

(** *** The reader reads what the writer wrote *)

Lemma append_assoc (s1 s2 s3 : string) : (s1 +:+ s2) +:+ s3 = s1 +:+ (s2 +:+ s3).
Proof. induction s1 as [|c s1 IH]; [reflexivity|]. rewrite !append_String, IH. reflexivity. Qed.

Lemma append_empty_r (s : string) : s +:+ "" = s.
Proof. induction s as [|c s IH]; [reflexivity|]. rewrite append_String, IH. reflexivity. Qed.

Lemma plain_char_not_dquote (c : ascii) :
  plain_char c = true -> Ascii.eqb c Fake.dquote = false.
Proof.
  destruct c as [[] [] [] [] [] [] [] []]; try reflexivity; discriminate.
Qed.

Lemma plain_String (c : ascii) (s : string) :
  plain (String c s) = true <-> plain_char c = true /\ plain s = true.
Proof. unfold plain. cbn [list_ascii_of_string forallb]. apply andb_true_iff. Qed.

Lemma Fake_read_key (k rest : string) (acc : string) (kvs : list (string * string)) :
  plain k = true ->
  Fake.read (k +:+ String Fake.dquote rest) (Fake.PKey acc) kvs
  = Fake.read rest (Fake.PColon (acc +:+ k)) kvs.
Proof.
  revert acc. induction k as [|c k IH]; intros acc Hk.
  - rewrite append_empty, append_empty_r. reflexivity.
  - apply plain_String in Hk as [Hc Hk].
    rewrite append_String. cbn [Fake.read].
    rewrite (plain_char_not_dquote c Hc), Hc, IH by exact Hk.
    rewrite append_assoc. reflexivity.
Qed.

Lemma Fake_read_val (v rest : string) (k acc : string) (kvs : list (string * string)) :
  plain v = true ->
  Fake.read (v +:+ String Fake.dquote rest) (Fake.PVal k acc) kvs
  = Fake.read rest Fake.PNext (kvs ++ [(k, acc +:+ v)]).
Proof.
  revert acc. induction v as [|c v IH]; intros acc Hv.
  - rewrite append_empty, append_empty_r. reflexivity.
  - apply plain_String in Hv as [Hc Hv].
    rewrite append_String. cbn [Fake.read].
    rewrite (plain_char_not_dquote c Hc), Hc, IH by exact Hv.
    rewrite append_assoc. reflexivity.
Qed.

(** One member, met where a member may start. *)
Lemma Fake_read_member (st : Fake.pstate) (k v rest : string) (kvs : list (string * string)) :
  st = Fake.PFirst \/ st = Fake.PMember ->
  plain k = true -> plain v = true ->
  Fake.read ("" +:+ "  " +:+ Fake.quote k +:+ ": " +:+ Fake.quote v +:+ rest) st kvs
  = Fake.read rest Fake.PNext (kvs ++ [(k, v)]).
Proof.
  intros Hst Hk Hv. unfold Fake.quote.
  rewrite !append_String, !append_empty, !append_assoc, !append_String, !append_empty.
  transitivity (Fake.read (k +:+ String Fake.dquote
                             (String ":" (String " " (String Fake.dquote
                                (v +:+ String Fake.dquote rest))))) (Fake.PKey "") kvs).
  { destruct Hst as [-> | ->]; reflexivity. }
  rewrite Fake_read_key by exact Hk.
  transitivity (Fake.read (v +:+ String Fake.dquote rest) (Fake.PVal ("" +:+ k) "") kvs);
    [reflexivity|].
  rewrite Fake_read_val by exact Hv. reflexivity.
Qed.

Lemma Fake_read_members (kvs : list (string * string)) :
  forall (st : Fake.pstate) (acc : list (string * string)) (rest : string),
  st = Fake.PFirst \/ st = Fake.PMember ->
  kvs <> [] -> plain_members kvs ->
  Fake.read (Fake.members "" "  " kvs +:+ rest) st acc
  = Fake.read rest Fake.PNext (acc ++ kvs).
Proof.
  induction kvs as [|[k v] kvs IH]; intros st acc rest Hst Hne Hall; [congruence|].
  apply Forall_cons in Hall as [[Hk Hv] Hall]. cbn [fst snd] in Hk, Hv.
  destruct kvs as [|kv kvs].
  - cbn [Fake.members]. rewrite !append_assoc.
    rewrite Fake_read_member by assumption. reflexivity.
  - change (Fake.members "" "  " ((k, v) :: kv :: kvs))
      with ("" +:+ "  " +:+ Fake.quote k +:+ ": " +:+ Fake.quote v +:+ "," +:+ Fake.newline
            +:+ Fake.members "" "  " (kv :: kvs)).
    rewrite !append_assoc.
    rewrite Fake_read_member by assumption.
    transitivity (Fake.read (Fake.members "" "  " (kv :: kvs) +:+ rest) Fake.PMember
                    (acc ++ [(k, v)])); [reflexivity|].
    rewrite (IH Fake.PMember _ _ (or_intror eq_refl)) by (assumption || discriminate).
    rewrite <- app_assoc. reflexivity.
Qed.

Lemma Fake_read_object (kvs : list (string * string)) :
  plain_members kvs ->
  Fake.read (Fake.object "" "  " kvs) Fake.PStart [] = Some kvs.
Proof.
  intros Hall. destruct kvs as [|kv kvs]; [reflexivity|].
  unfold Fake.object.
  transitivity (Fake.read (Fake.members "" "  " (kv :: kvs) +:+ "" +:+ "}") Fake.PFirst []);
    [reflexivity|].
  rewrite (Fake_read_members _ Fake.PFirst _ _ (or_introl eq_refl))
    by (assumption || discriminate).
  reflexivity.
Qed.

Lemma string_of_bytes_of_string (s : string) : string_of_bytes (bytes_of_string s) = s.
Proof. apply string_of_list_byte_of_string. Qed.

Lemma Fake_unmarshal_marshal {T : Type} (set : T -> string * string -> T)
  (kvs : list (string * string)) (v : T) :
  plain_members kvs ->
  exists data,
    Fake.marshal "" "  " kvs = (data, None)
    /\ Fake.unmarshal set data v = (fold_left set kvs v, None).
Proof.
  intros Hall. exists (bytes_of_string (Fake.object "" "  " kvs)). split.
  - unfold Fake.marshal.
    replace (forallb (fun kv => plain kv.2) kvs) with true; [reflexivity|].
    symmetry. apply forallb_forall. intros kv Hin.
    apply (proj1 (List.Forall_forall _ _) Hall kv Hin).
  - unfold Fake.unmarshal.
    rewrite string_of_bytes_of_string, Fake_read_object by exact Hall. reflexivity.
Qed.

Lemma Fake_config_codec_laws : ConfigCodecLaws Fake.config_codec.
Proof.
  split. intros [priv pub ns] (Hpriv & Hpub & Hns). cbn in Hpriv, Hpub, Hns.
  destruct (Fake_unmarshal_marshal Fake.set_config
              [("private_key", priv); ("public_key", pub); ("namespace_id", ns)]
              configData.zero) as (data & Hm & Hu).
  { repeat constructor; assumption. }
  exists data. split; [exact Hm|].
  change (Fake.unmarshal Fake.set_config data configData.zero
          = ({| configData.PrivateKey := priv; configData.PublicKey := pub;
                configData.NamespaceID := ns |}, None)).
  rewrite Hu. reflexivity.
Qed.

(** ** The texts the program writes are plain *)

Lemma plain_app (s1 s2 : string) :
  plain (s1 +:+ s2) = plain s1 && plain s2.
Proof.
  induction s1 as [|c s1 IH]; [reflexivity|].
  rewrite append_String. unfold plain in *. cbn [list_ascii_of_string forallb].
  rewrite IH, andb_assoc. reflexivity.
Qed.

Lemma plain_hex_digits (v : byte) :
  plain_char (hex.hextable (Z.shiftr (Zb v) 4)) = true
  /\ plain_char (hex.hextable (Z.land (Zb v) 15)) = true.
Proof. destruct v; split; reflexivity. Qed.

Lemma plain_hex (src : list byte) : plain (hex.EncodeToString src) = true.
Proof.
  induction src as [|v rest IH]; [reflexivity|].
  destruct (plain_hex_digits v) as [Hhi Hlo].
  cbn [hex.EncodeToString]. apply plain_String. split; [exact Hhi|].
  apply plain_String. split; [exact Hlo|exact IH].
Qed.

Lemma plain_uuid (u : uuid.UUID) : plain (uuid.String u) = true.
Proof.
  unfold uuid.String. rewrite !plain_app, !plain_hex. reflexivity.
Qed.

(** ** Saving and loading the configuration *)

Section SaveLoad.
Context {S : os.System} {SL : os.SystemLaws S}.
Context {JC : json.Codec configData.t} {JCL : ConfigCodecLaws JC}.

(** What [LoadConfig] returns once the file is read and unmarshalled. *)
Lemma LoadConfig_decoded (filename : string) (fs : os.FS) (data : list byte)
  (d : configData.t) (priv : list byte) (ns : uuid.UUID) :
  os.ReadFile filename fs = (data, None) ->
  json.Unmarshal data configData.zero = (d, None) ->
  hex.DecodeString (configData.PrivateKey d) = (priv, None) ->
  uuid.Parse (configData.NamespaceID d) = (ns, None) ->
  LoadConfig filename fs
  = (pubKey ← ed25519.Public priv;
     Done (Some {| Config.PrivateKey := priv; Config.PublicKey := pubKey;
                   Config.NamespaceID := ns |}, None)).
Proof.
  intros Hread Hjson Hhex Hns. unfold LoadConfig.
  rewrite Hread, Hjson, Hhex, Hns. reflexivity.
Qed.

Lemma SaveConfig_written (k : Config.t) (filename : string) (fs fs' : os.FS) :
  SaveConfig k filename fs = (fs', None) ->
  exists data,
    os.ReadFile filename fs' = (data, None)
    /\ json.Unmarshal data configData.zero
       = ({| configData.PrivateKey := hex.EncodeToString (Config.PrivateKey k);
             configData.PublicKey := hex.EncodeToString (Config.PublicKey k);
             configData.NamespaceID := uuid.String (Config.NamespaceID k) |}, None).
Proof.
  unfold SaveConfig.
  destruct (Unmarshal_MarshalIndent
              {| configData.PrivateKey := hex.EncodeToString (Config.PrivateKey k);
                 configData.PublicKey := hex.EncodeToString (Config.PublicKey k);
                 configData.NamespaceID := uuid.String (Config.NamespaceID k) |})
    as (data & Hm & Hu).
  { split; [apply plain_hex|split; [apply plain_hex|apply plain_uuid]]. }
  rewrite Hm.
  destruct (os.MkdirAll (os.Dir filename) 493 fs) as [fs1 [e|]]; [intros H; congruence|].
  intros Hw. exists data. split; [|exact Hu].
  eapply os.ReadFile_WriteFile, Hw.
Qed.

(** C4. For every valid key pair [k], saving [k] to a file and then loading
    that file gives back [k]: the same private key, public key and
    namespace. *)
Theorem load_after_save (k : Config.t) (filename : string) (fs fs' : os.FS) :
  valid_config k ->
  SaveConfig k filename fs = (fs', None) ->
  LoadConfig filename fs' = Done (Some k, None).
Proof.
  intros Hk Hsave.
  destruct (SaveConfig_written k filename fs fs' Hsave) as (data & Hread & Hjson).
  rewrite (LoadConfig_decoded _ _ _ _ _ _ Hread Hjson
             (hex_Decode_Encode _) (uuid_Parse_String _)).
  rewrite Hk. destruct k; reflexivity.
Qed.

End SaveLoad.

Lemma issue_then_verify_sample :
  exists licenseKey,
    GenerateLicenseKey (E := Fake.scheme) Sample.config
      (MacAddressToUUIDv5 Sample.mac (Config.NamespaceID Sample.config)).1
    = Done (licenseKey, None)
    /\ VerifyLicense (E := Fake.scheme)
         (hex.EncodeToString (Config.PublicKey Sample.config))
         (uuid.String (MacAddressToUUIDv5 Sample.mac (Config.NamespaceID Sample.config)).1)
         licenseKey (uuid.String (Config.NamespaceID Sample.config))
       = Done (true, None).
Proof.
  apply (issue_then_verify (L := Fake_scheme_laws) Sample.entropy [] Sample.config Sample.mac).
  vm_compute. reflexivity.
Defined.

Lemma load_after_save_sample :
  LoadConfig (S := Fake.system) (JC := Fake.config_codec) "licensor.json"
    (SaveConfig (S := Fake.system) (JC := Fake.config_codec)
       Sample.config "licensor.json" (∅ : gmap string (list byte))).1
  = Done (Some Sample.config, None).
Proof.
  apply (load_after_save (SL := Fake_system_laws) (JCL := Fake_config_codec_laws)
           Sample.config "licensor.json" (∅ : gmap string (list byte))).
  - vm_compute. reflexivity.
  - vm_compute. reflexivity.
Defined.

(** ** The identity of a device *)

Lemma colon_byte (c : ascii) :
  Ascii.eqb c ":" = bool_decide (byte_of_ascii c = Byte.x3a).
Proof. destruct c as [[] [] [] [] [] [] [] []]; reflexivity. Qed.

Lemma bytes_of_String (c : ascii) (s : string) :
  list_byte_of_string (String c s) = byte_of_ascii c :: list_byte_of_string s.
Proof. reflexivity. Qed.

Lemma ReplaceAll_without_colons (s : string) :
  bytes_of_string (strings.ReplaceAll s ":" "") = without_colons s.
Proof.
  unfold without_colons, bytes_of_string.
  induction s as [|c s IH]; [reflexivity|].
  cbn [strings.ReplaceAll]. rewrite colon_byte, bytes_of_String.
  destruct (decide (byte_of_ascii c = Byte.x3a)) as [Hc|Hc].
  - rewrite (bool_decide_eq_true_2 _ Hc), append_empty, IH.
    rewrite filter_cons_False; [reflexivity|]. intros H. exact (H Hc).
  - rewrite (bool_decide_eq_false_2 _ Hc), bytes_of_String, IH.
    rewrite filter_cons_True; [reflexivity|exact Hc].
Qed.

Lemma sha1_Sum_length (data : list byte) : length (sha1.Sum data) = 20%nat.
Proof.
  unfold sha1.Sum.
  destruct (sha1.blocks _ sha1.init _) as [[[[h0 h1] h2] h3] h4].
  unfold sha1.be_bytes.
  rewrite !length_app, !length_map, !length_rev, !length_seq. reflexivity.
Qed.

Lemma version5_byte (b : byte) :
  Zb (byte_of (Z.lor (Z.land (Zb b) 0x0f) (Z.shiftl (Z.land 5 0xf) 4)))
  = 0x50 + Zb b mod 16.
Proof. destruct b; reflexivity. Qed.

Lemma rfc4122_byte (b : byte) :
  Zb (byte_of (Z.lor (Z.land (Zb b) 0x3f) 0x80)) = 0x80 + Zb b mod 64.
Proof. destruct b; reflexivity. Qed.

Lemma NewSHA1_bytes (ns : uuid.UUID) (data : list byte) :
  let h := sha1.Sum (vec_to_list ns ++ data) in
  let u := uuid.NewSHA1 ns data in
  (forall i : nat, (i < 16)%nat -> i <> 6%nat -> i <> 8%nat ->
     vec_to_list u !! i = h !! i)
  /\ exists h6 h8, h !! 6%nat = Some h6 /\ h !! 8%nat = Some h8
       /\ Zb (u !!! 6%fin) = 0x50 + Zb h6 mod 16
       /\ Zb (u !!! 8%fin) = 0x80 + Zb h8 mod 64.
Proof.
  intros h u. subst u. unfold uuid.NewSHA1, uuid.NewHash. fold h.
  pose proof (sha1_Sum_length (vec_to_list ns ++ data)) as Hlen. fold h in Hlen.
  clearbody h.
  do 20 (destruct h as [|? h]; [discriminate Hlen|]).
  destruct h; [|discriminate Hlen]. clear Hlen.
  cbv beta zeta. cbn [array_of hd tl].
  split.
  - intros i Hi H6 H8.
    do 16 (destruct i as [|i]; [first [reflexivity | contradiction]|]). lia.
  - eexists _, _. split; [reflexivity|]. split; [reflexivity|].
    split; [apply version5_byte | apply rfc4122_byte].
Qed.

(** C8 (amended).  The identity derivation never fails, and what it removes
    before hashing is the colons of the identifier and nothing else.  The
    identity is the SHA-1 digest of the namespace bytes followed by the
    identifier's bytes other than colons, cut to 16 bytes, with version 5 and
    the RFC 4122 variant written into bytes 6 and 8.  So two identifiers
    whose bytes other than colons agree have the same identity, and
    AA:BB:CC:DD:EE:FF and AABBCCDDEEFF have the same identity under every
    namespace: under the DNS namespace of RFC 4122 it is
    53d1d136-d310-56cb-b1a9-221c1759ce6f. *)
Theorem derive_removes_colons_only (s : string) (ns : uuid.UUID) :
  let h := sha1.Sum (vec_to_list ns ++ without_colons s) in
  let u := (MacAddressToUUIDv5 s ns).1 in
  (MacAddressToUUIDv5 s ns).2 = None
  /\ (forall i : nat, (i < 16)%nat -> i <> 6%nat -> i <> 8%nat ->
        vec_to_list u !! i = h !! i)
  /\ (exists h6 h8, h !! 6%nat = Some h6 /\ h !! 8%nat = Some h8
        /\ Zb (u !!! 6%fin) = 0x50 + Zb h6 mod 16
        /\ Zb (u !!! 8%fin) = 0x80 + Zb h8 mod 64)
  /\ (forall s', without_colons s' = without_colons s ->
        MacAddressToUUIDv5 s' ns = MacAddressToUUIDv5 s ns)
  /\ MacAddressToUUIDv5 "AA:BB:CC:DD:EE:FF" ns = MacAddressToUUIDv5 "AABBCCDDEEFF" ns
  /\ uuid.String
       (MacAddressToUUIDv5 "AA:BB:CC:DD:EE:FF"
          (uuid.Parse "6ba7b810-9dad-11d1-80b4-00c04fd430c8").1).1
     = "53d1d136-d310-56cb-b1a9-221c1759ce6f".
Proof.
  intros h u. subst h u. unfold MacAddressToUUIDv5. cbn [fst snd].
  rewrite ReplaceAll_without_colons.
  destruct (NewSHA1_bytes ns (without_colons s)) as [Hi H68].
  split; [reflexivity|]. split; [exact Hi|]. split; [exact H68|].
  split; [|split].
  - intros s' Hs'. rewrite ReplaceAll_without_colons, Hs'. reflexivity.
  - reflexivity.
  - vm_compute. reflexivity.
Qed.

(** Identifiers that differ in another separator, or in the case of their
    letters, are kept apart: under the DNS namespace of RFC 4122 the
    hyphenated AA-BB-CC-DD-EE-FF does not get the identity of AABBCCDDEEFF,
    and aa:bb:cc:dd:ee:ff does not get that of AA:BB:CC:DD:EE:FF. *)
Lemma derive_keeps_hyphens_and_case :
  MacAddressToUUIDv5 "AA-BB-CC-DD-EE-FF"
    (uuid.Parse "6ba7b810-9dad-11d1-80b4-00c04fd430c8").1
  <> MacAddressToUUIDv5 "AABBCCDDEEFF"
       (uuid.Parse "6ba7b810-9dad-11d1-80b4-00c04fd430c8").1
  /\ MacAddressToUUIDv5 "aa:bb:cc:dd:ee:ff"
       (uuid.Parse "6ba7b810-9dad-11d1-80b4-00c04fd430c8").1
     <> MacAddressToUUIDv5 "AA:BB:CC:DD:EE:FF"
          (uuid.Parse "6ba7b810-9dad-11d1-80b4-00c04fd430c8").1.
Proof.
  split; intros H; apply (f_equal (fun p => uuid.String p.1)) in H;
    vm_compute in H; discriminate H.
Qed.

(** C9. The result of [VerifyLicense] does not depend on its namespace
    argument: two calls that differ only in [namespaceIDStr] return the
    same. *)
Theorem VerifyLicense_ignores_namespace {E : ed25519.Scheme}
  (publicKeyHex idStr licenseKey ns1 ns2 : string) :
  VerifyLicense publicKeyHex idStr licenseKey ns1
  = VerifyLicense publicKeyHex idStr licenseKey ns2.
Proof. reflexivity. Qed.

(** ** Malformed and wrong-size public keys *)

Lemma hex_error_pairs (s : string) :
  (forall out e, hex.DecodeString s = (out, Some e) -> hex_error e)
  /\ (forall c out e, hex.DecodeString (String c s) = (out, Some e) -> hex_error e).
Proof.
  induction s as [|q rest [IH1 IH2]].
  - split.
    + cbn. congruence.
    + intros c out e. cbn [hex.DecodeString].
      destruct (hex.fromHexChar c); intros H.
      * right. congruence.
      * left. exists c. congruence.
  - split; [exact (IH2 q)|].
    intros p out e. cbn [hex.DecodeString].
    destruct (hex.fromHexChar p); [|intros H; left; exists p; congruence].
    destruct (hex.fromHexChar q); [|intros H; left; exists q; congruence].
    destruct (hex.DecodeString rest) as [out' err'] eqn:Hrest.
    intros H. assert (err' = Some e) as -> by congruence.
    exact (IH1 out' e eq_refl).
Qed.

Lemma hex_error_is_hex (s : string) (out : list byte) (e : error) :
  hex.DecodeString s = (out, Some e) -> hex_error e.
Proof. apply hex_error_pairs. Qed.

(** C3, the part the code keeps: a public key that is not well-formed
    hexadecimal text makes [VerifyLicense] return the error "invalid public
    key format", whatever the other arguments are.  The part it breaks is
    [VerifyLicense_short_key_panics]. *)
Theorem VerifyLicense_malformed_hex {E : ed25519.Scheme}
  (publicKeyHex idStr licenseKey namespaceIDStr : string) (e : error) :
  (hex.DecodeString publicKeyHex).2 = Some e ->
  VerifyLicense publicKeyHex idStr licenseKey namespaceIDStr
  = Done (false, Some (Errorf "invalid public key format" e))
  /\ FormatError (Errorf "invalid public key format" e) = true.
Proof.
  intros He. unfold VerifyLicense.
  destruct (hex.DecodeString publicKeyHex) as [out err] eqn:Hd.
  cbn in He. subst err. split; [reflexivity|].
  destruct (hex_error_is_hex _ _ _ Hd) as [[c ->] | ->]; reflexivity.
Qed.

Lemma VerifyLicense_malformed_hex_sample :
  VerifyLicense (E := Fake.scheme) "d75a98018" "" "" ""
  = Done (false, Some (Errorf "invalid public key format" hex_ErrLength))
  /\ FormatError (Errorf "invalid public key format" hex_ErrLength) = true.
Proof.
  apply (VerifyLicense_malformed_hex (E := Fake.scheme) "d75a98018" "" "" "").
  vm_compute. reflexivity.
Defined.

(** C3, where the code departs from it: the one-byte key "00" is well-formed
    hexadecimal text of the wrong length; with a well-formed identity and
    license key, [VerifyLicense] returns no error: it panics in
    [ed25519.Verify], whatever the signature scheme. *)
Theorem VerifyLicense_short_key_panics (E : ed25519.Scheme) :
  VerifyLicense "00" "6ba7b810-9dad-11d1-80b4-00c04fd430c8" "AAAA" ""
  = Panic "ed25519: bad public key length".
Proof. reflexivity. Qed.

(** ** Loading: the stored public key *)

Lemma Public_at_least_32 (priv : list byte) :
  (32 <= length priv)%nat ->
  ed25519.Public priv = Done (vec_to_list (array_of 32 (drop 32 priv))).
Proof.
  intros H. unfold ed25519.Public.
  destruct (Nat.ltb_spec (length priv) 32); [lia|reflexivity].
Qed.

Section Load.
Context {S : os.System} {JC : json.Codec configData.t}.

(** C5, as the code has it: during load the stored public key is not compared
    with the stored private key.  Whenever the private key is hexadecimal
    text of at least 32 bytes and the namespace parses, load succeeds whatever
    the public_key field holds, and the public key of the result is bytes 32
    to 63 of the private key. *)
Theorem LoadConfig_does_not_check_public_key (filename : string) (fs : os.FS)
  (data : list byte) (d : configData.t) (priv : list byte) (ns : uuid.UUID) :
  os.ReadFile filename fs = (data, None) ->
  json.Unmarshal data configData.zero = (d, None) ->
  hex.DecodeString (configData.PrivateKey d) = (priv, None) ->
  uuid.Parse (configData.NamespaceID d) = (ns, None) ->
  (32 <= length priv)%nat ->
  LoadConfig filename fs
  = Done (Some {| Config.PrivateKey := priv;
                  Config.PublicKey := vec_to_list (array_of 32 (drop 32 priv));
                  Config.NamespaceID := ns |}, None).
Proof.
  intros Hread Hjson Hhex Hns Hlen.
  rewrite (LoadConfig_decoded _ _ _ _ _ _ Hread Hjson Hhex Hns).
  rewrite Public_at_least_32 by exact Hlen. reflexivity.
Qed.

(** C10. Two persisted records that differ only in their public_key field
    load to the same result, and every Config a load returns satisfies the
    key pair invariant: its public key is the one [PrivateKey.Public] gives
    for its private key (the stored public_key is never used). *)
Theorem LoadConfig_recomputes_public_key (filename : string) (fs1 fs2 : os.FS)
  (data1 data2 : list byte) (d1 d2 : configData.t) :
  os.ReadFile filename fs1 = (data1, None) ->
  os.ReadFile filename fs2 = (data2, None) ->
  json.Unmarshal data1 configData.zero = (d1, None) ->
  json.Unmarshal data2 configData.zero = (d2, None) ->
  configData.PrivateKey d1 = configData.PrivateKey d2 ->
  configData.NamespaceID d1 = configData.NamespaceID d2 ->
  LoadConfig filename fs1 = LoadConfig filename fs2
  /\ (forall k, LoadConfig filename fs1 = Done (Some k, None) -> valid_config k).
Proof.
  intros Hread1 Hread2 Hjson1 Hjson2 Hpriv Hns.
  assert (forall fs data d,
            os.ReadFile filename fs = (data, None) ->
            json.Unmarshal data configData.zero = (d, None) ->
            LoadConfig filename fs
            = (let '(privKeyBytes, err) := hex.DecodeString (configData.PrivateKey d) in
               match err with
               | Some e => Done (None, Some (Errorf "invalid private key format" e))
               | None =>
               let '(namespaceID, err) := uuid.Parse (configData.NamespaceID d) in
               match err with
               | Some e => Done (None, Some (Errorf "invalid namespace UUID" e))
               | None =>
                   pubKey ← ed25519.Public privKeyBytes;
                   Done (Some {| Config.PrivateKey := privKeyBytes;
                                 Config.PublicKey := pubKey;
                                 Config.NamespaceID := namespaceID |}, None)
               end end)) as Hload.
  { intros fs data d Hr Hj. unfold LoadConfig. rewrite Hr, Hj. reflexivity. }
  rewrite (Hload _ _ _ Hread1 Hjson1), (Hload _ _ _ Hread2 Hjson2), Hpriv, Hns.
  split; [reflexivity|].
  intros k.
  destruct (hex.DecodeString (configData.PrivateKey d2)) as [priv [e|]];
    [intros H; congruence|].
  destruct (uuid.Parse (configData.NamespaceID d2)) as [ns [e|]];
    [intros H; congruence|].
  unfold valid_config.
  destruct (ed25519.Public priv) as [pub|msg] eqn:Hpub; cbn [mbind exec_bind];
    intros H; [|congruence].
  assert (k = {| Config.PrivateKey := priv; Config.PublicKey := pub;
                 Config.NamespaceID := ns |}) as -> by congruence.
  exact Hpub.
Qed.

End Load.

(** ** The errors of the decoders *)

Lemma base64_decode_error (s : string) :
  forall (dbuf : list Z) (e : error),
  (base64.decode s dbuf).2 = Some e -> e = base64_CorruptInputError.
Proof.
  assert (forall rest dbuf e,
            (base64.finish rest dbuf).2 = Some e -> e = base64_CorruptInputError)
    as Hfinish.
  { intros rest dbuf e. unfold base64.finish. cbn [snd].
    destruct (base64.skipNewlines rest); congruence. }
  induction s as [|c rest IH]; intros dbuf e.
  - cbn [base64.decode]. destruct dbuf; cbn [snd]; congruence.
  - cbn [base64.decode].
    destruct (base64.decodeMap c) as [v|].
    + destruct (length dbuf =? 3)%nat.
      * destruct (base64.decode rest []) as [out err] eqn:Hrest. cbn [snd].
        intros ->. apply (IH [] e). rewrite Hrest. reflexivity.
      * apply IH.
    + destruct (base64.isNewline c); [apply IH|].
      destruct (negb (Ascii.eqb c base64.padChar)); [cbn [snd]; congruence|].
      destruct (length dbuf) as [|[|[|n]]]; try (cbn [snd]; congruence).
      * destruct (base64.skipNewlines rest) as [|c' rest']; [cbn [snd]; congruence|].
        destruct (negb (Ascii.eqb c' base64.padChar)); [cbn [snd]; congruence|].
        apply Hfinish.
      * apply Hfinish.
Qed.

Lemma uuid_parseHyphenated_error (s : string) (e : error) :
  (uuid.parseHyphenated s).2 = Some e -> e = uuid_invalidFormat.
Proof.
  unfold uuid.parseHyphenated.
  destruct (_ || _); [cbn [snd]; congruence|].
  destruct (uuid.xtobs _ _) as [vs []]; cbn [snd]; congruence.
Qed.

Lemma uuid_Parse_error (s : string) (e : error) (text : string) :
  (uuid.Parse s).2 = Some e -> FormatError (Errorf text e) = true.
Proof.
  unfold uuid.Parse.
  destruct (String.length s =? 36)%nat.
  { intros H. rewrite (uuid_parseHyphenated_error _ _ H). reflexivity. }
  destruct (String.length s =? 36 + 9)%nat.
  { destruct (negb _).
    - cbn [snd]. intros H. assert (e = uuid_invalidURNPrefix (substring 0 9 s)) as ->
        by congruence. reflexivity.
    - intros H. rewrite (uuid_parseHyphenated_error _ _ H). reflexivity. }
  destruct (String.length s =? 36 + 2)%nat.
  { intros H. rewrite (uuid_parseHyphenated_error _ _ H). reflexivity. }
  destruct (String.length s =? 32)%nat.
  { destruct (uuid.xtobs _ _) as [vs []]; cbn [snd]; intros H; [congruence|].
    assert (e = uuid_invalidFormat) as -> by congruence. reflexivity. }
  cbn [snd]. intros H. assert (e = uuid_invalidLengthError (String.length s)) as ->
    by congruence. reflexivity.
Qed.

(** ** The outcomes of verification *)

(** C7. [VerifyLicense] tells a signature that does not match from a malformed
    license key.  With a public key that is hexadecimal text of 32 bytes, a
    well-formed identity and a well-formed base64 license key, a signature
    that does not verify gives [false] and no error.  With a license key that
    is not valid base64, whatever the other arguments, the result carries a
    format error: it is never the plain negative answer [(false, nil)]. *)
Theorem VerifyLicense_mismatch_or_malformed {E : ed25519.Scheme} :
  (forall (publicKeyHex idStr licenseKey namespaceIDStr : string)
          (publicKey signature : list byte) (id : uuid.UUID),
     hex.DecodeString publicKeyHex = (publicKey, None) ->
     length publicKey = 32%nat ->
     uuid.Parse idStr = (id, None) ->
     base64.DecodeString licenseKey = (signature, None) ->
     ed25519.verify publicKey (vec_to_list id) signature = false ->
     VerifyLicense publicKeyHex idStr licenseKey namespaceIDStr = Done (false, None))
  /\ (forall (publicKeyHex idStr licenseKey namespaceIDStr : string) (e : error),
        (base64.DecodeString licenseKey).2 = Some e ->
        exists e',
          FormatError e' = true
          /\ VerifyLicense publicKeyHex idStr licenseKey namespaceIDStr
             = Done (false, Some e')).
Proof.
  split.
  - intros pkh idStr key ns pk sig id Hpk Hlen Hid Hsig Hverify.
    rewrite (VerifyLicense_decoded _ _ _ _ _ _ _ Hpk Hid Hsig).
    unfold ed25519.Verify. rewrite bool_decide_eq_true_2 by exact Hlen.
    cbn [mbind exec_bind]. rewrite Hverify. reflexivity.
  - intros pkh idStr key ns e He. unfold VerifyLicense.
    destruct (hex.DecodeString pkh) as [pk [e0|]] eqn:Hpk.
    { exists (Errorf "invalid public key format" e0). split; [|reflexivity].
      destruct (hex_error_is_hex _ _ _ Hpk) as [[c ->] | ->]; reflexivity. }
    destruct (uuid.Parse idStr) as [id [e1|]] eqn:Hid.
    { exists (Errorf "invalid UUID format" e1). split; [|reflexivity].
      apply (uuid_Parse_error idStr). rewrite Hid. reflexivity. }
    destruct (base64.DecodeString key) as [sig err] eqn:Hsig.
    cbn [snd] in He. subst err.
    exists (Errorf "invalid license key format" e). split; [|reflexivity].
    assert (e = base64_CorruptInputError) as ->; [|reflexivity].
    apply (base64_decode_error key [] e). unfold base64.DecodeString in Hsig.
    rewrite Hsig. reflexivity.
Qed.

Lemma VerifyLicense_mismatch_or_malformed_sample :
  VerifyLicense (E := Fake.scheme)
    (hex.EncodeToString (Config.PublicKey Sample.config))
    (uuid.String Sample.id) (base64.EncodeToString (repeat Byte.x00 64)) ""
  = Done (false, None)
  /\ exists e',
       FormatError e' = true
       /\ VerifyLicense (E := Fake.scheme)
            (hex.EncodeToString (Config.PublicKey Sample.config))
            (uuid.String Sample.id) "not base64!" ""
          = Done (false, Some e').
Proof.
  split.
  - apply (proj1 (VerifyLicense_mismatch_or_malformed (E := Fake.scheme))
             _ _ _ "" (Config.PublicKey Sample.config) (repeat Byte.x00 64) Sample.id).
    + apply hex_Decode_Encode.
    + reflexivity.
    + apply uuid_Parse_String.
    + apply base64_Decode_Encode.
    + vm_compute. reflexivity.
  - apply (proj2 (VerifyLicense_mismatch_or_malformed (E := Fake.scheme))
             _ _ "not base64!" "" base64_CorruptInputError).
    vm_compute. reflexivity.
Defined.

(** ** A license key with one bit changed *)

Lemma flip_bit_length (i : nat) (s : string) :
  String.length (flip_bit i s) = String.length s.
Proof.
  revert i. induction s as [|c s IH]; intros i; [reflexivity|].
  cbn [flip_bit]. destruct (i <? 8)%nat; cbn [String.length]; [reflexivity|].
  rewrite IH. reflexivity.
Qed.

Lemma base64_encode_low (v : Z) : (Zc (base64.encode v) <? 128) = true.
Proof.
  unfold base64.encode. generalize (Z.to_nat v). intros n.
  do 64 (destruct n as [|n]; [reflexivity|]). destruct n; reflexivity.
Qed.

Lemma base64_Encode_low (src : list byte) : low (base64.EncodeToString src) = true.
Proof.
  remember (length src) as n eqn:Hn. revert src Hn.
  induction n as [n IH] using lt_wf_ind. intros src Hn.
  destruct src as [|a [|b [|c rest]]]; cbn [length] in Hn; subst n;
    unfold low; cbn [base64.EncodeToString list_ascii_of_string forallb];
    rewrite ?base64_encode_low; try reflexivity.
  apply (IH (length rest)); [lia|reflexivity].
Qed.

(** A character with its top bit set is outside the alphabet, is no newline
    and is not the padding. *)
Lemma high_char (c : ascii) :
  (128 <=? Zc c) = true ->
  base64.decodeMap c = None /\ base64.isNewline c = false
  /\ Ascii.eqb c base64.padChar = false.
Proof.
  destruct c as [b0 b1 b2 b3 b4 b5 b6 []]; [|destruct b0, b1, b2, b3, b4, b5, b6; discriminate].
  intros _. destruct b0, b1, b2, b3, b4, b5, b6; repeat split; reflexivity.
Qed.

Lemma newline_not_high (c : ascii) :
  base64.isNewline c = true -> (128 <=? Zc c) = false.
Proof.
  destruct (128 <=? Zc c) eqn:H; [|reflexivity].
  destruct (high_char c H) as (_ & Hn & _). congruence.
Qed.

Lemma has_high_skipNewlines (s : string) :
  has_high s = true -> has_high (base64.skipNewlines s) = true.
Proof.
  induction s as [|c s IH]; [discriminate|].
  cbn [base64.skipNewlines]. destruct (base64.isNewline c) eqn:Hc; [|trivial].
  unfold has_high in *. cbn [list_ascii_of_string existsb].
  rewrite (newline_not_high c Hc). exact IH.
Qed.

Lemma has_high_nonempty (s : string) : has_high s = true -> s <> "".
Proof. intros H ->. discriminate. Qed.

(** A text with a character whose top bit is set is not valid base64. *)
Lemma base64_decode_high (s : string) :
  forall dbuf : list Z,
  has_high s = true -> (base64.decode s dbuf).2 = Some base64_CorruptInputError.
Proof.
  assert (forall rest dbuf, has_high rest = true ->
            (base64.finish rest dbuf).2 = Some base64_CorruptInputError) as Hfinish.
  { intros rest dbuf H. unfold base64.finish. cbn [snd].
    pose proof (has_high_nonempty _ (has_high_skipNewlines _ H)).
    destruct (base64.skipNewlines rest); congruence. }
  induction s as [|c rest IH]; intros dbuf Hs; [discriminate|].
  cbn [base64.decode].
  unfold has_high in Hs. cbn [list_ascii_of_string existsb] in Hs.
  destruct (128 <=? Zc c) eqn:Hc.
  - destruct (high_char c Hc) as (-> & -> & ->). reflexivity.
  - cbn [orb] in Hs. fold (has_high rest) in Hs.
    destruct (base64.decodeMap c) as [v|].
    + destruct (length dbuf =? 3)%nat.
      * specialize (IH [] Hs). destruct (base64.decode rest []) as [out err].
        exact IH.
      * apply IH, Hs.
    + destruct (base64.isNewline c); [apply IH, Hs|].
      destruct (negb (Ascii.eqb c base64.padChar)); [reflexivity|].
      destruct (length dbuf) as [|[|[|n]]]; try reflexivity.
      * pose proof (has_high_skipNewlines _ Hs) as Hskip.
        destruct (base64.skipNewlines rest) as [|c' rest']; [reflexivity|].
        destruct (negb (Ascii.eqb c' base64.padChar)) eqn:Hc'; [reflexivity|].
        apply Hfinish.
        unfold has_high in Hskip. cbn [list_ascii_of_string existsb] in Hskip.
        destruct (128 <=? Zc c') eqn:Hh; [|exact Hskip].
        destruct (high_char c' Hh) as (_ & _ & Hp). rewrite Hp in Hc'. discriminate.
      * apply Hfinish, Hs.
Qed.

Lemma flip_top_bit_high (c : ascii) :
  (Zc c <? 128) = true -> (128 <=? Zc (flip_char 7 c)) = true.
Proof.
  destruct c as [b0 b1 b2 b3 b4 b5 b6 []];
    destruct b0, b1, b2, b3, b4, b5, b6; (discriminate || reflexivity).
Qed.

Lemma flip_bit_high (s : string) :
  forall i : nat,
  low s = true -> (i < 8 * String.length s)%nat -> (i mod 8 = 7)%nat ->
  has_high (flip_bit i s) = true.
Proof.
  induction s as [|c s IH]; intros i Hlow Hi Hmod; [cbn in Hi; lia|].
  unfold low in Hlow. cbn [list_ascii_of_string forallb] in Hlow.
  apply andb_true_iff in Hlow as [Hc Hlow].
  cbn [flip_bit]. destruct (Nat.ltb_spec i 8) as [Hlt|Hge].
  - assert (i = 7)%nat as -> by (rewrite Nat.mod_small in Hmod; lia).
    unfold has_high. cbn [list_ascii_of_string existsb].
    rewrite (flip_top_bit_high c Hc). reflexivity.
  - unfold has_high. cbn [list_ascii_of_string existsb].
    fold (has_high (flip_bit (i - 8) s)). rewrite IH; [apply orb_true_r|exact Hlow| |].
    + cbn [String.length] in Hi. lia.
    + replace i with ((i - 8) + 1 * 8)%nat in Hmod by lia.
      rewrite Nat.Div0.mod_add in Hmod. exact Hmod.
Qed.

(** C6, as the code has it: changing one bit of an issued license key leaves
    its length unchanged, and [VerifyLicense] then returns the error "invalid
    license key format" when the changed text is not valid base64 - which is
    so whenever the bit is the top bit of a character - and otherwise the
    boolean outcome of checking the decoded bytes against the identity. *)
Theorem tampered_key_outcome {E : ed25519.Scheme} {L : ed25519.SchemeLaws E}
  (rnd rnd' : rand.Reader) (k : Config.t) (r : string) (i : nat) :
  GenerateKeyPair rnd = Done ((Some k, None), rnd') ->
  let id := (MacAddressToUUIDv5 r (Config.NamespaceID k)).1 in
  let verify key :=
    VerifyLicense (hex.EncodeToString (Config.PublicKey k)) (uuid.String id) key
      (uuid.String (Config.NamespaceID k)) in
  exists licenseKey,
    GenerateLicenseKey k id = Done (licenseKey, None)
    /\ String.length (flip_bit i licenseKey) = String.length licenseKey
    /\ verify (flip_bit i licenseKey)
       = match base64.DecodeString (flip_bit i licenseKey) with
         | (_, Some e) => Done (false, Some (Errorf "invalid license key format" e))
         | (signature, None) =>
             Done (ed25519.verify (Config.PublicKey k) (vec_to_list id) signature, None)
         end
    /\ ((i < 8 * String.length licenseKey)%nat -> (i mod 8 = 7)%nat ->
        verify (flip_bit i licenseKey)
        = Done (false, Some (Errorf "invalid license key format"
                               base64_CorruptInputError))).
Proof.
  intros Hgen id verify.
  destruct (GenerateKeyPair_inv _ _ _ _ Hgen) as [seed Hk].
  destruct (keypair_sizes _ _ Hk) as [Hpriv Hpub].
  exists (base64.EncodeToString (ed25519.sign (Config.PrivateKey k) (vec_to_list id))).
  set (key := base64.EncodeToString _).
  assert (forall key',
            verify key'
            = match base64.DecodeString key' with
              | (_, Some e) => Done (false, Some (Errorf "invalid license key format" e))
              | (signature, None) =>
                  Done (ed25519.verify (Config.PublicKey k) (vec_to_list id) signature,
                        None)
              end) as Hverify.
  { intros key'. unfold verify, VerifyLicense.
    rewrite hex_Decode_Encode, uuid_Parse_String.
    destruct (base64.DecodeString key') as [sig [e|]]; [reflexivity|].
    unfold ed25519.Verify. rewrite bool_decide_eq_true_2 by exact Hpub. reflexivity. }
  split; [|split; [|split]].
  - unfold GenerateLicenseKey, ed25519.Sign.
    rewrite bool_decide_eq_true_2 by exact Hpriv. reflexivity.
  - apply flip_bit_length.
  - apply Hverify.
  - intros Hi Hmod. rewrite Hverify.
    pose proof (base64_decode_high (flip_bit i key) []
                  (flip_bit_high key i (base64_Encode_low _) Hi Hmod)) as Hbad.
    unfold base64.DecodeString.
    destruct (base64.decode (flip_bit i key) []) as [sig err].
    cbn [snd] in Hbad. subst err. reflexivity.
Qed.

Lemma tampered_key_outcome_sample :
  exists licenseKey,
    GenerateLicenseKey (E := Fake.scheme) Sample.config
      (MacAddressToUUIDv5 Sample.mac (Config.NamespaceID Sample.config)).1
    = Done (licenseKey, None)
    /\ String.length (flip_bit 7 licenseKey) = String.length licenseKey
    /\ VerifyLicense (E := Fake.scheme)
         (hex.EncodeToString (Config.PublicKey Sample.config))
         (uuid.String (MacAddressToUUIDv5 Sample.mac (Config.NamespaceID Sample.config)).1)
         (flip_bit 7 licenseKey) (uuid.String (Config.NamespaceID Sample.config))
       = match base64.DecodeString (flip_bit 7 licenseKey) with
         | (_, Some e) => Done (false, Some (Errorf "invalid license key format" e))
         | (signature, None) =>
             Done (ed25519.verify (Scheme := Fake.scheme) (Config.PublicKey Sample.config)
                     (vec_to_list
                        (MacAddressToUUIDv5 Sample.mac
                           (Config.NamespaceID Sample.config)).1) signature, None)
         end
    /\ ((7 < 8 * String.length licenseKey)%nat -> (7 mod 8 = 7)%nat ->
        VerifyLicense (E := Fake.scheme)
          (hex.EncodeToString (Config.PublicKey Sample.config))
          (uuid.String (MacAddressToUUIDv5 Sample.mac (Config.NamespaceID Sample.config)).1)
          (flip_bit 7 licenseKey) (uuid.String (Config.NamespaceID Sample.config))
        = Done (false, Some (Errorf "invalid license key format"
                               base64_CorruptInputError))).
Proof.
  apply (tampered_key_outcome (L := Fake_scheme_laws) Sample.entropy [] Sample.config
           Sample.mac 7).
  vm_compute. reflexivity.
Defined.

(** C6 fails as stated.  For the sample key pair and the identifier
    AA:BB:CC:DD:EE:FF, changing the top bit of the first character of the
    issued key makes [VerifyLicense] return an error, and changing bit 1 of
    its character 85 (an A, which becomes a C: only bits that the decoder
    drops differ) gives another key that [VerifyLicense] still accepts. *)
Lemma tampered_key_error_or_accepted :
  GenerateLicenseKey (E := Fake.scheme) Sample.config Sample.id
  = Done (Sample.licenseKey, None)
  /\ VerifyLicense (E := Fake.scheme)
       (hex.EncodeToString (Config.PublicKey Sample.config)) (uuid.String Sample.id)
       (flip_bit 7 Sample.licenseKey) (uuid.String (Config.NamespaceID Sample.config))
     = Done (false, Some (Errorf "invalid license key format" base64_CorruptInputError))
  /\ String.eqb (flip_bit 681 Sample.licenseKey) Sample.licenseKey = false
  /\ VerifyLicense (E := Fake.scheme)
       (hex.EncodeToString (Config.PublicKey Sample.config)) (uuid.String Sample.id)
       (flip_bit 681 Sample.licenseKey) (uuid.String (Config.NamespaceID Sample.config))
     = Done (true, None).
Proof. repeat split; vm_compute; reflexivity. Qed.

Lemma LoadConfig_does_not_check_public_key_sample :
  LoadConfig (S := Fake.system) (JC := Fake.config_codec) "licensor.json" Sample.forged_fs
  = Done (Some {| Config.PrivateKey := Config.PrivateKey Sample.config;
                  Config.PublicKey :=
                    vec_to_list (array_of 32 (drop 32 (Config.PrivateKey Sample.config)));
                  Config.NamespaceID := Config.NamespaceID Sample.config |}, None).
Proof.
  apply (LoadConfig_does_not_check_public_key (S := Fake.system) (JC := Fake.config_codec)
           "licensor.json" Sample.forged_fs
           (json.MarshalIndent (Codec := Fake.config_codec) Sample.forged "" "  ").1
           Sample.forged).
  - vm_compute. reflexivity.
  - vm_compute. reflexivity.
  - apply hex_Decode_Encode.
  - apply uuid_Parse_String.
  - vm_compute. lia.
Defined.

(** C5 fails as stated.  The record [Sample.forged] stores 32 zero bytes as
    its public key, which is not the public key of its private key; load
    neither notices nor fails: it returns the key pair of the private key. *)
Lemma LoadConfig_accepts_inconsistent_public_key :
  json.Unmarshal (Codec := Fake.config_codec)
    (json.MarshalIndent (Codec := Fake.config_codec) Sample.forged "" "  ").1
    configData.zero
  = (Sample.forged, None)
  /\ String.eqb (configData.PublicKey Sample.forged)
       (hex.EncodeToString (Config.PublicKey Sample.config)) = false
  /\ LoadConfig (S := Fake.system) (JC := Fake.config_codec) "licensor.json"
       Sample.forged_fs
     = Done (Some Sample.config, None).
Proof. repeat split; vm_compute; reflexivity. Qed.

Lemma LoadConfig_recomputes_public_key_sample :
  LoadConfig (S := Fake.system) (JC := Fake.config_codec) "licensor.json" Sample.saved_fs
  = LoadConfig (S := Fake.system) (JC := Fake.config_codec) "licensor.json" Sample.forged_fs
  /\ (forall k,
        LoadConfig (S := Fake.system) (JC := Fake.config_codec) "licensor.json"
          Sample.saved_fs = Done (Some k, None) ->
        valid_config k).
Proof.
  apply (LoadConfig_recomputes_public_key (S := Fake.system) (JC := Fake.config_codec)
           "licensor.json" Sample.saved_fs Sample.forged_fs
           (os.ReadFile (System := Fake.system) "licensor.json" Sample.saved_fs).1
           (json.MarshalIndent (Codec := Fake.config_codec) Sample.forged "" "  ").1
           {| configData.PrivateKey := hex.EncodeToString (Config.PrivateKey Sample.config);
              configData.PublicKey := hex.EncodeToString (Config.PublicKey Sample.config);
              configData.NamespaceID := uuid.String (Config.NamespaceID Sample.config) |}
           Sample.forged);
    vm_compute; reflexivity.
Defined.

(** ** The verify command *)

Lemma Done_inj {A : Type} (a b : A) : Done a = Done b -> a = b.
Proof. congruence. Qed.

Section VerifyCommand.
Context {E : ed25519.Scheme} {S : os.System} {JL : json.Codec LicenseData.t}.

(** C2. The verify command derives the identity again from the identifier
    presented to it and the namespace of the record, and never reads the
    derived identity (nor the identifier) stored in the record: records that
    agree on the public key, the license key and the namespace give the same
    result, whatever their other fields hold.  And it reports VALID only when
    the signature verifies against the identity derived from the presented
    identifier. *)
Theorem stored_identity_not_trusted (licenseFilePtr macPtr : string)
  (ifs : list net.Interface * option error) (fs : os.FS) (d : LicenseData.t) :
  LoadLicense licenseFilePtr fs = (Some d, None) ->
  (forall (fs' : os.FS) (d' : LicenseData.t),
     LoadLicense licenseFilePtr fs' = (Some d', None) ->
     LicenseData.PublicKey d' = LicenseData.PublicKey d ->
     LicenseData.LicenseKey d' = LicenseData.LicenseKey d ->
     LicenseData.NamespaceID d' = LicenseData.NamespaceID d ->
     commandVerifyLicense licenseFilePtr macPtr ifs fs'
     = commandVerifyLicense licenseFilePtr macPtr ifs fs)
  /\ (forall out : list printed,
        commandVerifyLicense licenseFilePtr macPtr ifs fs = Done out ->
        In (Println "License verification: VALID") out ->
        exists (macAddress : string) (namespaceID : uuid.UUID)
               (publicKey signature : list byte),
          (if negb (String.eqb macPtr "") then macAddress = macPtr
           else GetBRLANMacAddress ifs = (macAddress, None))
          /\ uuid.Parse (LicenseData.NamespaceID d) = (namespaceID, None)
          /\ hex.DecodeString (LicenseData.PublicKey d) = (publicKey, None)
          /\ base64.DecodeString (LicenseData.LicenseKey d) = (signature, None)
          /\ ed25519.verify publicKey
               (vec_to_list
                  (uuid.NewSHA1 namespaceID
                     (bytes_of_string (strings.ReplaceAll macAddress ":" ""))))
               signature = true).
Proof.
  intros Hload. split.
  - intros fs' d' Hload' Hpk Hkey Hns. unfold commandVerifyLicense.
    rewrite Hload, Hload', Hpk, Hkey, Hns. reflexivity.
  - intros out. unfold commandVerifyLicense. rewrite Hload.
    assert (forall text (e : error),
              ~ In (Println "License verification: VALID") [Printf text [ArgE e]])
      as Herr.
    { intros text e [H|[]]. discriminate H. }
    set (sel := if negb (String.eqb macPtr "") then (macPtr, None)
                else GetBRLANMacAddress ifs).
    assert (forall mac, sel = (mac, None) ->
              if negb (String.eqb macPtr "") then mac = macPtr
              else GetBRLANMacAddress ifs = (mac, None)) as Hsel.
    { intros mac. unfold sel. destruct (negb (String.eqb macPtr "")); congruence. }
    destruct sel as [mac [e|]].
    { intros H Hin. apply Done_inj in H. subst out. destruct (Herr _ _ Hin). }
    specialize (Hsel mac eq_refl).
    destruct (uuid.Parse (LicenseData.NamespaceID d)) as [ns [e|]] eqn:Hns.
    { intros H Hin. apply Done_inj in H. subst out. destruct (Herr _ _ Hin). }
    unfold MacAddressToUUIDv5, VerifyLicense. rewrite uuid_Parse_String.
    destruct (hex.DecodeString (LicenseData.PublicKey d)) as [pk [e|]] eqn:Hpk.
    { cbn [mbind exec_bind]. intros H Hin. apply Done_inj in H. subst out. destruct (Herr _ _ Hin). }
    destruct (base64.DecodeString (LicenseData.LicenseKey d)) as [sig [e|]] eqn:Hsig.
    { cbn [mbind exec_bind]. intros H Hin. apply Done_inj in H. subst out. destruct (Herr _ _ Hin). }
    unfold ed25519.Verify.
    destruct (bool_decide (length pk = ed25519.PublicKeySize));
      cbn [mbind exec_bind]; [|intros H; congruence].
    destruct (ed25519.verify pk _ sig) eqn:Hverify.
    + intros _ _. exists mac, ns, pk, sig. auto.
    + intros H Hin. exfalso. apply Done_inj in H. subst out.
      destruct Hin as [H'|[H'|[H'|[]]]]; discriminate H'.
Qed.

End VerifyCommand.

Lemma stored_identity_not_trusted_sample :
  (forall (fs' : gmap string (list byte)) (d' : LicenseData.t),
     LoadLicense (S := Fake.system) (JL := Fake.license_codec) "license.json" fs'
     = (Some d', None) ->
     LicenseData.PublicKey d' = LicenseData.PublicKey Sample.license ->
     LicenseData.LicenseKey d' = LicenseData.LicenseKey Sample.license ->
     LicenseData.NamespaceID d' = LicenseData.NamespaceID Sample.license ->
     commandVerifyLicense (E := Fake.scheme) (S := Fake.system) (JL := Fake.license_codec)
       "license.json" Sample.mac ([], None) fs'
     = commandVerifyLicense (E := Fake.scheme) (S := Fake.system)
         (JL := Fake.license_codec) "license.json" Sample.mac ([], None)
         Sample.licensed_fs)
  /\ (forall out : list printed,
        commandVerifyLicense (E := Fake.scheme) (S := Fake.system)
          (JL := Fake.license_codec) "license.json" Sample.mac ([], None)
          Sample.licensed_fs = Done out ->
        In (Println "License verification: VALID") out ->
        exists (macAddress : string) (namespaceID : uuid.UUID)
               (publicKey signature : list byte),
          (if negb (String.eqb Sample.mac "") then macAddress = Sample.mac
           else GetBRLANMacAddress ([], None) = (macAddress, None))
          /\ uuid.Parse (LicenseData.NamespaceID Sample.license) = (namespaceID, None)
          /\ hex.DecodeString (LicenseData.PublicKey Sample.license) = (publicKey, None)
          /\ base64.DecodeString (LicenseData.LicenseKey Sample.license)
             = (signature, None)
          /\ ed25519.verify (Scheme := Fake.scheme) publicKey
               (vec_to_list
                  (uuid.NewSHA1 namespaceID
                     (bytes_of_string (strings.ReplaceAll macAddress ":" ""))))
               signature = true).
Proof.
  apply (stored_identity_not_trusted (E := Fake.scheme) (S := Fake.system)
           (JL := Fake.license_codec) "license.json" Sample.mac ([], None)
           Sample.licensed_fs Sample.license).
  vm_compute. reflexivity.
Defined.

(** * Further properties of the program *)

(** ** Version and variant of the UUIDs the program makes *)

Lemma uuid_String_version (u : uuid.UUID) :
  uuid.at_ (uuid.String u) 14 = hex.hextable (Z.shiftr (Zb (u !!! 6%fin)) 4)
  /\ uuid.at_ (uuid.String u) 19 = hex.hextable (Z.shiftr (Zb (u !!! 8%fin)) 4).
Proof. unfold uuid.UUID in u. inv_vec u. intros. split; reflexivity. Qed.

Lemma version_byte (b : byte) (v : Z) :
  v = 4 \/ v = 5 ->
  hex.hextable
    (Z.shiftr (Zb (byte_of (Z.lor (Z.land (Zb b) 0x0f) (Z.shiftl (Z.land v 0xf) 4)))) 4)
  = char_of (48 + v).
Proof. intros [-> | ->]; destruct b; reflexivity. Qed.

Lemma variant_byte (b : byte) :
  In (hex.hextable (Z.shiftr (Zb (byte_of (Z.lor (Z.land (Zb b) 0x3f) 0x80))) 4))
    ["8"; "9"; "a"; "b"]%char.
Proof. destruct b; cbn; auto. Qed.

Lemma lookup6_insert6 (u : vec byte 16) (x : byte) : vinsert 6%fin x u !!! 6%fin = x.
Proof. inv_vec u. intros. reflexivity. Qed.

Lemma lookup8_insert8 (u : vec byte 16) (x : byte) : vinsert 8%fin x u !!! 8%fin = x.
Proof. inv_vec u. intros. reflexivity. Qed.

Lemma lookup6_insert8 (u : vec byte 16) (x : byte) :
  vinsert 8%fin x u !!! 6%fin = u !!! 6%fin.
Proof. inv_vec u. intros. reflexivity. Qed.

Lemma versioned_insert (v : Z) (u : uuid.UUID) :
  v = 4 \/ v = 5 ->
  let u1 :=
    vinsert 6%fin
      (byte_of (Z.lor (Z.land (Zb (u !!! 6%fin)) 0x0f) (Z.shiftl (Z.land v 0xf) 4))) u in
  versioned v
    (vinsert 8%fin (byte_of (Z.lor (Z.land (Zb (u1 !!! 8%fin)) 0x3f) 0x80)) u1).
Proof.
  intros Hv u1. unfold versioned.
  destruct (uuid_String_version
              (vinsert 8%fin (byte_of (Z.lor (Z.land (Zb (u1 !!! 8%fin)) 0x3f) 0x80)) u1))
    as [-> ->].
  split.
  - rewrite lookup6_insert8. subst u1. rewrite lookup6_insert6.
    apply version_byte, Hv.
  - rewrite lookup8_insert8. apply variant_byte.
Qed.

(** Every identity [MacAddressToUUIDv5] derives is a version-5 UUID of the
    RFC 4122 variant, whatever the identifier and the namespace. *)
Theorem MacAddressToUUIDv5_version (macAddress : string) (namespaceID : uuid.UUID) :
  versioned 5 (MacAddressToUUIDv5 macAddress namespaceID).1.
Proof. apply (versioned_insert 5). right. reflexivity. Qed.

Lemma NewRandom_outcome (r : rand.Reader) :
  if (length r <? 16)%nat
  then uuid.NewRandom r
       = ((uuid.Nil,
           Some (if (length r =? 0)%nat then io_EOF else io_ErrUnexpectedEOF)), [])
  else exists u, uuid.NewRandom r = ((u, None), drop 16 r) /\ versioned 4 u.
Proof.
  unfold uuid.NewRandom, rand.ReadFull.
  destruct (length r <? 16)%nat; [reflexivity|].
  eexists. split; [reflexivity|]. apply (versioned_insert 4). left. reflexivity.
Qed.

(** [GenerateNamespaceUUID] fails exactly when the random source has fewer
    than 16 bytes left - with [io.EOF] when it has none, with
    [io.ErrUnexpectedEOF] when it has some; otherwise it takes 16 bytes and
    returns a version-4 UUID of the RFC 4122 variant. *)
Theorem GenerateNamespaceUUID_outcome (r : rand.Reader) :
  if (length r <? 16)%nat
  then GenerateNamespaceUUID r
       = ((uuid.Nil,
           Some (if (length r =? 0)%nat then io_EOF else io_ErrUnexpectedEOF)), [])
  else exists u, GenerateNamespaceUUID r = ((u, None), drop 16 r) /\ versioned 4 u.
Proof. apply NewRandom_outcome. Qed.

(** ** Generating a key pair *)

(** [GenerateKeyPair] never panics.  It fails with "failed to generate key
    pair" when the random source has fewer than 32 bytes, with "failed to
    generate namespace UUID" when it has 32 to 47; the cause is [io.EOF] when
    the read that fails finds no byte at all (an empty source; a source of
    exactly 32 bytes), [io.ErrUnexpectedEOF] otherwise.  Otherwise it takes 48
    bytes: the first 32 are the seed of the key pair, whose private key is
    the seed followed by the public key, and the namespace is a version-4
    UUID. *)
Theorem GenerateKeyPair_outcome {E : ed25519.Scheme} {L : ed25519.SchemeLaws E}
  (r : rand.Reader) :
  if (length r <? 32)%nat then
    GenerateKeyPair r
    = Done ((None,
             Some (Errorf "failed to generate key pair"
                     (if (length r =? 0)%nat then io_EOF else io_ErrUnexpectedEOF))),
            [])
  else if (length r <? 48)%nat then
    GenerateKeyPair r
    = Done ((None,
             Some (Errorf "failed to generate namespace UUID"
                     (if (length r =? 32)%nat then io_EOF else io_ErrUnexpectedEOF))),
            [])
  else
    exists k,
      GenerateKeyPair r = Done ((Some k, None), drop 48 r)
      /\ keypair_of_seed (take 32 r) k
      /\ versioned 4 (Config.NamespaceID k).
Proof.
  assert (forall n, (n <= length r)%nat ->
            rand.ReadFull n r = ((take n r, None), drop n r)) as Hfull.
  { intros n Hn. unfold rand.ReadFull.
    destruct (Nat.ltb_spec (length r) n); [lia|reflexivity]. }
  assert (forall n, (length r < n)%nat ->
            rand.ReadFull n r = (([], Some (rand.shortRead r)), [])) as Hshort.
  { intros n Hn. unfold rand.ReadFull.
    destruct (Nat.ltb_spec (length r) n); [reflexivity|lia]. }
  unfold GenerateKeyPair, ed25519.GenerateKey, ed25519.SeedSize.
  destruct (Nat.ltb_spec (length r) 32) as [Hlt|Hge].
  { rewrite Hshort by exact Hlt. reflexivity. }
  rewrite Hfull by exact Hge.
  assert (length (take 32 r) = 32%nat) as Hseed by (rewrite length_take; lia).
  unfold ed25519.NewKeyFromSeed. rewrite bool_decide_eq_true_2 by exact Hseed.
  cbn [mbind exec_bind].
  pose proof (NewRandom_outcome (drop 32 r)) as Hns.
  rewrite length_drop in Hns.
  destruct (Nat.ltb_spec (length r) 48) as [Hlt|Hge'].
  - replace (length r - 32 <? 16)%nat with true in Hns
      by (symmetry; apply Nat.ltb_lt; lia).
    rewrite Hns.
    destruct (Nat.eqb_spec (length r - 32) 0), (Nat.eqb_spec (length r) 32);
      (reflexivity || lia).
  - replace (length r - 32 <? 16)%nat with false in Hns
      by (symmetry; apply Nat.ltb_ge; lia).
    destruct Hns as (u & Hns & Hver). rewrite Hns, drop_drop.
    eexists. split; [reflexivity|]. split; [|exact Hver].
    split; [exact Hseed|]. split; [reflexivity|].
    cbn [Config.PublicKey]. rewrite drop_app_length' by (symmetry; exact Hseed).
    apply array_of_list. apply ed25519.publicKey_length, Hseed.
Qed.

Lemma GenerateKeyPair_outcome_sample :
  exists k,
    GenerateKeyPair (E := Fake.scheme) Sample.entropy = Done ((Some k, None), drop 48 Sample.entropy)
    /\ keypair_of_seed (E := Fake.scheme) (take 32 Sample.entropy) k
    /\ versioned 4 (Config.NamespaceID k).
Proof. exact (GenerateKeyPair_outcome (L := Fake_scheme_laws) Sample.entropy). Defined.

(** A key pair that [GenerateKeyPair] returns is complete: there is no
    error beside it, the private key has 64 bytes, the public key has 32
    and is what [PrivateKey.Public] gives for the private key. *)
Theorem GenerateKeyPair_valid {E : ed25519.Scheme} {L : ed25519.SchemeLaws E}
  (r r' : rand.Reader) (k : Config.t) (err : option error) :
  GenerateKeyPair r = Done ((Some k, err), r') ->
  err = None
  /\ length (Config.PrivateKey k) = 64%nat
  /\ length (Config.PublicKey k) = 32%nat
  /\ valid_config k.
Proof.
  intros Hgen. pose proof (GenerateKeyPair_outcome r) as Hout.
  destruct (length r <? 32)%nat; [congruence|].
  destruct (length r <? 48)%nat; [congruence|].
  destruct Hout as (k' & Hk' & Hseed & _).
  assert (k' = k /\ err = None) as [-> ->] by (split; congruence).
  split; [reflexivity|].
  destruct (keypair_sizes _ _ Hseed) as [Hpriv Hpub].
  split; [exact Hpriv|]. split; [exact Hpub|].
  destruct Hseed as (Hlen & Hprivk & Hpubk).
  unfold valid_config. rewrite Public_at_least_32 by lia.
  rewrite Hprivk, Hpubk, drop_app_length' by (symmetry; exact Hlen).
  rewrite array_of_list; [reflexivity|]. apply ed25519.publicKey_length, Hlen.
Qed.

Lemma GenerateKeyPair_valid_sample :
  (None : option error) = None
  /\ length (Config.PrivateKey Sample.config) = 64%nat
  /\ length (Config.PublicKey Sample.config) = 32%nat
  /\ valid_config Sample.config.
Proof.
  apply (GenerateKeyPair_valid (E := Fake.scheme) (L := Fake_scheme_laws)
           Sample.entropy [] Sample.config None).
  vm_compute. reflexivity.
Defined.

(** ** The license key *)

Lemma base64_Encode_length (src : list byte) :
  String.length (base64.EncodeToString src) = (4 * ((length src + 2) / 3))%nat.
Proof.
  remember (length src) as n eqn:Hn. revert src Hn.
  induction n as [n IH] using lt_wf_ind. intros src Hn.
  destruct src as [|a [|b [|c rest]]]; cbn [length] in Hn; subst n; try reflexivity.
  cbn [base64.EncodeToString String.length].
  rewrite (IH (length rest)) by (lia || reflexivity).
  replace (S (S (S (length rest))) + 2)%nat with ((length rest + 2) + 1 * 3)%nat by lia.
  rewrite Nat.div_add by lia. lia.
Qed.

Lemma base64_encode_plain (v : Z) : plain_char (base64.encode v) = true.
Proof.
  unfold base64.encode. generalize (Z.to_nat v). intros n.
  do 64 (destruct n as [|n]; [reflexivity|]). destruct n; reflexivity.
Qed.

Lemma base64_Encode_plain (src : list byte) : plain (base64.EncodeToString src) = true.
Proof.
  remember (length src) as n eqn:Hn. revert src Hn.
  induction n as [n IH] using lt_wf_ind. intros src Hn.
  destruct src as [|a [|b [|c rest]]]; cbn [length] in Hn; subst n;
    unfold plain; cbn [base64.EncodeToString list_ascii_of_string forallb];
    rewrite ?base64_encode_plain; try reflexivity.
  apply (IH (length rest)); [lia|reflexivity].
Qed.

(** [GenerateLicenseKey] with a private key of 64 bytes returns, without
    error, a license key of 88 characters, all of which a JSON file holds
    unescaped, and which decodes to the signature of the identity; with a
    private key of any other length it panics. *)
Theorem GenerateLicenseKey_outcome {E : ed25519.Scheme} {L : ed25519.SchemeLaws E}
  (config : Config.t) (id : uuid.UUID) :
  if bool_decide (length (Config.PrivateKey config) = 64%nat) then
    exists licenseKey,
      GenerateLicenseKey config id = Done (licenseKey, None)
      /\ String.length licenseKey = 88%nat
      /\ plain licenseKey = true
      /\ base64.DecodeString licenseKey
         = (ed25519.sign (Config.PrivateKey config) (vec_to_list id), None)
  else GenerateLicenseKey config id = Panic "ed25519: bad private key length".
Proof.
  unfold GenerateLicenseKey, ed25519.Sign, ed25519.PrivateKeySize.
  destruct (bool_decide_reflect (length (Config.PrivateKey config) = 64%nat)) as [Hlen|Hlen];
    [|reflexivity].
  eexists. split; [reflexivity|]. split; [|split].
  - rewrite base64_Encode_length, ed25519.sign_length by exact Hlen. reflexivity.
  - apply base64_Encode_plain.
  - apply base64_Decode_Encode.
Qed.

Lemma GenerateLicenseKey_outcome_sample :
  exists licenseKey,
    GenerateLicenseKey (E := Fake.scheme) Sample.config Sample.id = Done (licenseKey, None)
    /\ String.length licenseKey = 88%nat
    /\ plain licenseKey = true
    /\ base64.DecodeString licenseKey
       = (ed25519.sign (Scheme := Fake.scheme) (Config.PrivateKey Sample.config)
            (vec_to_list Sample.id), None).
Proof.
  exact (GenerateLicenseKey_outcome (L := Fake_scheme_laws) Sample.config Sample.id).
Defined.

(** ** What verification can return *)

(** [VerifyLicense] panics in exactly one case: the public key, the
    identity and the license key are all well formed, and the public key does
    not have 32 bytes. *)
Theorem VerifyLicense_panics_iff {E : ed25519.Scheme}
  (publicKeyHex idStr licenseKey namespaceIDStr msg : string) :
  VerifyLicense publicKeyHex idStr licenseKey namespaceIDStr = Panic msg
  <-> msg = "ed25519: bad public key length"
      /\ exists (publicKey signature : list byte) (id : uuid.UUID),
           hex.DecodeString publicKeyHex = (publicKey, None)
           /\ uuid.Parse idStr = (id, None)
           /\ base64.DecodeString licenseKey = (signature, None)
           /\ length publicKey <> 32%nat.
Proof.
  unfold VerifyLicense, ed25519.Verify, ed25519.PublicKeySize.
  destruct (hex.DecodeString publicKeyHex) as [pk [e|]].
  { split; [intros H; congruence|]. intros (_ & pk' & sig & id & H & _). congruence. }
  destruct (uuid.Parse idStr) as [id [e|]].
  { split; [intros H; congruence|]. intros (_ & pk' & sig & id' & _ & H & _). congruence. }
  destruct (base64.DecodeString licenseKey) as [sig [e|]].
  { split; [intros H; congruence|].
    intros (_ & pk' & sig' & id' & _ & _ & H & _). congruence. }
  destruct (bool_decide_reflect (length pk = 32%nat)) as [Hlen|Hlen]; cbn [mbind exec_bind].
  - split; [intros H; congruence|].
    intros (_ & pk' & sig' & id' & H & _ & _ & Hne).
    assert (pk' = pk) as -> by congruence. contradiction.
  - split.
    + intros H. split; [congruence|]. exists pk, sig, id. auto.
    + intros [-> _]. reflexivity.
Qed.

(** [VerifyLicense] answers [true] only without an error, and only when
    the three texts are well formed, the public key has 32 bytes and the
    signature verifies against the 16 bytes of the identity. *)
Theorem VerifyLicense_true_only_if_verified {E : ed25519.Scheme}
  (publicKeyHex idStr licenseKey namespaceIDStr : string) (err : option error) :
  VerifyLicense publicKeyHex idStr licenseKey namespaceIDStr = Done (true, err) ->
  err = None
  /\ exists (publicKey signature : list byte) (id : uuid.UUID),
       hex.DecodeString publicKeyHex = (publicKey, None)
       /\ uuid.Parse idStr = (id, None)
       /\ base64.DecodeString licenseKey = (signature, None)
       /\ length publicKey = 32%nat
       /\ ed25519.verify publicKey (vec_to_list id) signature = true.
Proof.
  unfold VerifyLicense, ed25519.Verify, ed25519.PublicKeySize.
  destruct (hex.DecodeString publicKeyHex) as [pk [e|]]; [intros H; congruence|].
  destruct (uuid.Parse idStr) as [id [e|]]; [intros H; congruence|].
  destruct (base64.DecodeString licenseKey) as [sig [e|]]; [intros H; congruence|].
  destruct (bool_decide_reflect (length pk = 32%nat)) as [Hlen|Hlen];
    cbn [mbind exec_bind]; [|intros H; congruence].
  intros H. split; [congruence|]. exists pk, sig, id.
  repeat split; try reflexivity; [exact Hlen|congruence].
Qed.

Lemma VerifyLicense_true_only_if_verified_sample :
  (None : option error) = None
  /\ exists (publicKey signature : list byte) (id : uuid.UUID),
       hex.DecodeString (LicenseData.PublicKey Sample.license) = (publicKey, None)
       /\ uuid.Parse (uuid.String Sample.id) = (id, None)
       /\ base64.DecodeString Sample.licenseKey = (signature, None)
       /\ length publicKey = 32%nat
       /\ ed25519.verify (Scheme := Fake.scheme) publicKey (vec_to_list id) signature
          = true.
Proof.
  apply (VerifyLicense_true_only_if_verified (E := Fake.scheme)
           (LicenseData.PublicKey Sample.license) (uuid.String Sample.id)
           Sample.licenseKey "" None).
  vm_compute. reflexivity.
Defined.

(** A license key that is well-formed base64 of anything but 64 bytes -
    the empty key, a truncated key - is answered with [false] and no error,
    for a well-formed public key of 32 bytes and a well-formed identity. *)
Theorem VerifyLicense_wrong_size_signature {E : ed25519.Scheme} {L : ed25519.SchemeLaws E}
  (publicKeyHex idStr licenseKey namespaceIDStr : string)
  (publicKey signature : list byte) (id : uuid.UUID) :
  hex.DecodeString publicKeyHex = (publicKey, None) ->
  length publicKey = 32%nat ->
  uuid.Parse idStr = (id, None) ->
  base64.DecodeString licenseKey = (signature, None) ->
  length signature <> 64%nat ->
  VerifyLicense publicKeyHex idStr licenseKey namespaceIDStr = Done (false, None).
Proof.
  intros Hpk Hlen Hid Hsig Hsize.
  rewrite (VerifyLicense_decoded _ _ _ _ _ _ _ Hpk Hid Hsig).
  unfold ed25519.Verify. rewrite bool_decide_eq_true_2 by exact Hlen.
  cbn [mbind exec_bind]. rewrite ed25519.verify_length by exact Hsize. reflexivity.
Qed.

Lemma VerifyLicense_wrong_size_signature_sample :
  VerifyLicense (E := Fake.scheme) (hex.EncodeToString (Config.PublicKey Sample.config))
    (uuid.String Sample.id) "" ""
  = Done (false, None).
Proof.
  apply (VerifyLicense_wrong_size_signature (L := Fake_scheme_laws) _ _ "" ""
           (Config.PublicKey Sample.config) [] Sample.id).
  - apply hex_Decode_Encode.
  - reflexivity.
  - apply uuid_Parse_String.
  - reflexivity.
  - discriminate.
Defined.

(** ** Damaged files *)

Section Damaged.
Context {E : ed25519.Scheme} {S : os.System}.
Context {JC : json.Codec configData.t} {JL : json.Codec LicenseData.t}.

(** [LoadConfig] panics on a record whose private key is well-formed
    hexadecimal text of fewer than 32 bytes (an empty private_key, say) and
    whose namespace is well formed: [privKey.Public()] slices past the end
    of the key. *)
Theorem LoadConfig_short_private_key_panics (filename : string) (fs : os.FS)
  (data : list byte) (d : configData.t) (priv : list byte) (ns : uuid.UUID) :
  os.ReadFile filename fs = (data, None) ->
  json.Unmarshal data configData.zero = (d, None) ->
  hex.DecodeString (configData.PrivateKey d) = (priv, None) ->
  uuid.Parse (configData.NamespaceID d) = (ns, None) ->
  (length priv < 32)%nat ->
  LoadConfig filename fs = Panic "slice bounds out of range".
Proof.
  intros Hread Hjson Hhex Hns Hlen.
  rewrite (LoadConfig_decoded _ _ _ _ _ _ Hread Hjson Hhex Hns).
  unfold ed25519.Public.
  destruct (Nat.ltb_spec (length priv) 32); [reflexivity|lia].
Qed.

(** A configuration whose private key does not have 64 bytes makes the
    generate command panic when it signs, once an identifier is at hand: a
    key of 32 to 63 bytes, or of more than 64, is loaded without complaint
    and fails only there. *)
Theorem commandGenerateLicense_bad_private_key_panics
  (configPtr macPtr outputPtr : string) (ifs : list net.Interface * option error)
  (fs : os.FS) (config : Config.t) :
  LoadConfig configPtr fs = Done (Some config, None) ->
  macPtr <> "" ->
  length (Config.PrivateKey config) <> 64%nat ->
  commandGenerateLicense configPtr macPtr outputPtr ifs fs
  = Panic "ed25519: bad private key length".
Proof.
  intros Hload Hmac Hlen. unfold commandGenerateLicense. rewrite Hload.
  cbn [mbind exec_bind].
  replace (String.eqb macPtr "") with false
    by (symmetry; apply String.eqb_neq, Hmac).
  cbn [negb]. unfold MacAddressToUUIDv5, GenerateLicenseKey, ed25519.Sign.
  rewrite bool_decide_eq_false_2 by exact Hlen. reflexivity.
Qed.

(** The verify command panics on a license record whose public key is
    well-formed hexadecimal text of a length other than 32 bytes, when the
    namespace and the license key of the record are well formed and an
    identifier is given. *)
Theorem commandVerifyLicense_bad_public_key_panics
  (licenseFilePtr macPtr : string) (ifs : list net.Interface * option error)
  (fs : os.FS) (d : LicenseData.t) (ns : uuid.UUID) (pk sig : list byte) :
  LoadLicense licenseFilePtr fs = (Some d, None) ->
  macPtr <> "" ->
  uuid.Parse (LicenseData.NamespaceID d) = (ns, None) ->
  hex.DecodeString (LicenseData.PublicKey d) = (pk, None) ->
  base64.DecodeString (LicenseData.LicenseKey d) = (sig, None) ->
  length pk <> 32%nat ->
  commandVerifyLicense licenseFilePtr macPtr ifs fs
  = Panic "ed25519: bad public key length".
Proof.
  intros Hload Hmac Hns Hpk Hsig Hlen. unfold commandVerifyLicense. rewrite Hload.
  replace (String.eqb macPtr "") with false
    by (symmetry; apply String.eqb_neq, Hmac).
  cbn [negb]. rewrite Hns. unfold MacAddressToUUIDv5.
  rewrite (VerifyLicense_decoded _ _ _ _ _ _ _ Hpk (uuid_Parse_String _) Hsig).
  unfold ed25519.Verify. rewrite bool_decide_eq_false_2 by exact Hlen. reflexivity.
Qed.

End Damaged.

Lemma LoadConfig_short_private_key_panics_sample :
  LoadConfig (S := Fake.system) (JC := Fake.config_codec) "licensor.json"
    Edge.no_private_key_fs
  = Panic "slice bounds out of range".
Proof.
  apply (LoadConfig_short_private_key_panics (S := Fake.system) (JC := Fake.config_codec)
           "licensor.json" Edge.no_private_key_fs
           (os.ReadFile (System := Fake.system) "licensor.json" Edge.no_private_key_fs).1
           {| configData.PrivateKey := ""; configData.PublicKey := "";
              configData.NamespaceID := uuid.String (Config.NamespaceID Sample.config) |}
           [] (Config.NamespaceID Sample.config)).
  - vm_compute. reflexivity.
  - vm_compute. reflexivity.
  - reflexivity.
  - apply uuid_Parse_String.
  - cbn. lia.
Defined.

Lemma commandGenerateLicense_bad_private_key_panics_sample :
  commandGenerateLicense (E := Fake.scheme) (S := Fake.system) (JC := Fake.config_codec)
    (JL := Fake.license_codec) "licensor.json" Sample.mac "license.json" ([], None)
    Edge.seed_only_fs
  = Panic "ed25519: bad private key length".
Proof.
  apply (commandGenerateLicense_bad_private_key_panics (E := Fake.scheme)
           (S := Fake.system) (JC := Fake.config_codec) (JL := Fake.license_codec)
           "licensor.json" Sample.mac "license.json" ([], None) Edge.seed_only_fs
           {| Config.PrivateKey := take 32 (Config.PrivateKey Sample.config);
              Config.PublicKey := repeat Byte.x00 32;
              Config.NamespaceID := Config.NamespaceID Sample.config |}).
  - vm_compute. reflexivity.
  - discriminate.
  - vm_compute. lia.
Defined.

Lemma commandVerifyLicense_bad_public_key_panics_sample :
  commandVerifyLicense (E := Fake.scheme) (S := Fake.system) (JL := Fake.license_codec)
    "license.json" Sample.mac ([], None) Edge.short_key_license_fs
  = Panic "ed25519: bad public key length".
Proof.
  apply (commandVerifyLicense_bad_public_key_panics (E := Fake.scheme)
           (S := Fake.system) (JL := Fake.license_codec)
           "license.json" Sample.mac ([], None) Edge.short_key_license_fs
           Edge.short_key_license (Config.NamespaceID Sample.config) [Byte.x00]
           (ed25519.sign (Scheme := Fake.scheme) (Config.PrivateKey Sample.config)
              (vec_to_list Sample.id))).
  - vm_compute. reflexivity.
  - discriminate.
  - apply uuid_Parse_String.
  - reflexivity.
  - vm_compute. reflexivity.
  - cbn. lia.
Defined.

(** ** Finding the hardware address *)

Lemma find_first {A : Type} (f : A -> bool) (l1 l2 : list A) (x : A) :
  Forall (fun y => f y = false) l1 -> f x = true ->
  List.find f (l1 ++ x :: l2) = Some x.
Proof.
  intros Hl1 Hx. induction Hl1 as [|y l1 Hy _ IH]; cbn [app List.find].
  - rewrite Hx. reflexivity.
  - rewrite Hy. exact IH.
Qed.

Lemma find_none_all {A : Type} (f : A -> bool) (l : list A) :
  Forall (fun y => f y = false) l -> List.find f l = None.
Proof.
  intros Hl. induction Hl as [|y l Hy _ IH]; cbn [List.find]; [reflexivity|].
  rewrite Hy. exact IH.
Qed.

(** [GetBRLANMacAddress] returns the address of the first interface named
    br-lan, whatever its flags and even when it has no address (the result is
    then the empty string, without error) and whatever interfaces come before
    it.  Without an interface of that name it returns the address of the
    first interface that is up, is not a loopback and has an address; and
    without such an interface either, an error. *)
Theorem GetBRLANMacAddress_choice (l1 l2 : list net.Interface) (iface : net.Interface) :
  (named_br_lan iface = true ->
   Forall (fun i => named_br_lan i = false) l1 ->
   GetBRLANMacAddress (l1 ++ iface :: l2, None)
   = (net.HardwareAddr_String (net.HardwareAddr iface), None))
  /\ (Forall (fun i => named_br_lan i = false) (l1 ++ iface :: l2) ->
      usable iface = true ->
      Forall (fun i => usable i = false) l1 ->
      GetBRLANMacAddress (l1 ++ iface :: l2, None)
      = (net.HardwareAddr_String (net.HardwareAddr iface), None)
        /\ net.HardwareAddr_String (net.HardwareAddr iface) <> "")
  /\ (Forall (fun i => named_br_lan i = false /\ usable i = false) l1 ->
      GetBRLANMacAddress (l1, None)
      = ("", Some (errors_New
                     "could not find BR-LAN interface or suitable network interface"))).
Proof.
  unfold GetBRLANMacAddress. fold named_br_lan. fold usable.
  split; [|split].
  - intros Hname Hl1. rewrite (find_first named_br_lan l1 l2 iface Hl1 Hname).
    reflexivity.
  - intros Hnone Huse Hl1.
    rewrite (find_none_all named_br_lan _ Hnone).
    rewrite (find_first usable l1 l2 iface Hl1 Huse). split; [reflexivity|].
    unfold usable in Huse. apply andb_true_iff in Huse as [_ Hlen].
    destruct (net.HardwareAddr iface) as [|b [|b' rest]]; [discriminate| |];
      cbn [net.HardwareAddr_String hex.EncodeToString]; discriminate.
  - intros Hl1.
    rewrite (find_none_all named_br_lan l1), (find_none_all usable l1).
    + reflexivity.
    + eapply Forall_impl; [exact Hl1|]. intros i [_ H]. exact H.
    + eapply Forall_impl; [exact Hl1|]. intros i [H _]. exact H.
Qed.

Lemma GetBRLANMacAddress_choice_sample :
  GetBRLANMacAddress
    ([{| net.Name := "eth0"; net.HardwareAddr := [Byte.x02; Byte.x42];
         net.Flags := 1 |}]
     ++ {| net.Name := "br-lan"; net.HardwareAddr := []; net.Flags := 0 |} :: [],
     None)
  = (net.HardwareAddr_String [], None).
Proof.
  apply (proj1 (GetBRLANMacAddress_choice
                  [{| net.Name := "eth0"; net.HardwareAddr := [Byte.x02; Byte.x42];
                      net.Flags := 1 |}] []
                  {| net.Name := "br-lan"; net.HardwareAddr := []; net.Flags := 0 |})).
  - reflexivity.
  - repeat constructor.
Defined.

Lemma hex_digit_not_colon (b : byte) :
  Ascii.eqb (hex.hextable (Z.shiftr (Zb b) 4)) ":" = false
  /\ Ascii.eqb (hex.hextable (Z.land (Zb b) 15)) ":" = false.
Proof. destruct b; split; reflexivity. Qed.

Lemma ReplaceAll_hex (src : list byte) :
  strings.ReplaceAll (hex.EncodeToString src) ":" "" = hex.EncodeToString src.
Proof.
  induction src as [|b rest IH]; [reflexivity|].
  destruct (hex_digit_not_colon b) as [Hhi Hlo].
  cbn [hex.EncodeToString strings.ReplaceAll]. rewrite Hhi, Hlo, IH. reflexivity.
Qed.

Lemma ReplaceAll_HardwareAddr (a : list byte) :
  strings.ReplaceAll (net.HardwareAddr_String a) ":" "" = hex.EncodeToString a.
Proof.
  induction a as [|b rest IH]; [reflexivity|].
  destruct (hex_digit_not_colon b) as [Hhi Hlo].
  destruct rest as [|b' rest].
  - apply (ReplaceAll_hex [b]).
  - change (net.HardwareAddr_String (b :: b' :: rest))
      with (hex.EncodeToString [b] +:+ ":" +:+ net.HardwareAddr_String (b' :: rest)).
    cbn [hex.EncodeToString]. rewrite !append_String, !append_empty.
    cbn [strings.ReplaceAll]. rewrite Hhi, Hlo.
    change (Ascii.eqb ":" ":") with true. cbn iota.
    rewrite append_empty, IH. reflexivity.
Qed.

(** The identity of a detected interface: the colons that
    [HardwareAddr.String] puts between the bytes are removed again, so the
    identity is the version-5 UUID of the lower-case hexadecimal digits of
    the address. *)
Theorem MacAddressToUUIDv5_of_HardwareAddr (a : list byte) (namespaceID : uuid.UUID) :
  MacAddressToUUIDv5 (net.HardwareAddr_String a) namespaceID
  = (uuid.NewSHA1 namespaceID (bytes_of_string (hex.EncodeToString a)), None).
Proof. unfold MacAddressToUUIDv5. rewrite ReplaceAll_HardwareAddr. reflexivity. Qed.

(** ** Saving and loading a license *)

Lemma Fake_license_codec_laws : LicenseCodecLaws Fake.license_codec.
Proof.
  split. intros [did duuid key pub priv ns] (Hdid & Hduuid & Hkey & Hpub & Hpriv & Hns).
  cbn in Hdid, Hduuid, Hkey, Hpub, Hpriv, Hns.
  destruct (String.eqb priv "") eqn:Hempty.
  - apply String.eqb_eq in Hempty. subst priv.
    destruct (Fake_unmarshal_marshal Fake.set_license
                [("device_id", did); ("device_uuid", duuid); ("license_key", key);
                 ("public_key", pub); ("namespace_id", ns)]
                LicenseData.zero) as (data & Hm & Hu).
    { repeat constructor; assumption. }
    exists data. split; [exact Hm|].
    change (Fake.unmarshal Fake.set_license data LicenseData.zero
            = (LicenseData.Build_t did duuid key pub "" ns, None)).
    rewrite Hu. reflexivity.
  - destruct (Fake_unmarshal_marshal Fake.set_license
                [("device_id", did); ("device_uuid", duuid); ("license_key", key);
                 ("public_key", pub); ("private_key", priv); ("namespace_id", ns)]
                LicenseData.zero) as (data & Hm & Hu).
    { repeat constructor; assumption. }
    exists data. split.
    + change (Fake.marshal "" "  "
                ([("device_id", did); ("device_uuid", duuid); ("license_key", key);
                  ("public_key", pub)]
                 ++ (if String.eqb priv "" then [] else [("private_key", priv)])
                 ++ [("namespace_id", ns)]) = (data, None)).
      rewrite Hempty. exact Hm.
    + change (Fake.unmarshal Fake.set_license data LicenseData.zero
              = (LicenseData.Build_t did duuid key pub priv ns, None)).
      rewrite Hu. reflexivity.
Qed.

Section License.
Context {E : ed25519.Scheme} {L : ed25519.SchemeLaws E}.
Context {S : os.System} {SL : os.SystemLaws S}.
Context {JC : json.Codec configData.t} {JCL : ConfigCodecLaws JC}.
Context {JL : json.Codec LicenseData.t} {JLL : LicenseCodecLaws JL}.

(** A license record of plain strings that [SaveLicense] writes without
    error is read back by [LoadLicense] as it was: every field the same, the
    private_key left out of the file being read back empty. *)
Theorem LoadLicense_after_SaveLicense (d : LicenseData.t) (filename : string)
  (fs fs' : os.FS) :
  plain_license d ->
  SaveLicense d filename fs = (fs', None) ->
  LoadLicense filename fs' = (Some d, None).
Proof.
  intros Hd. unfold SaveLicense, LoadLicense.
  destruct (Unmarshal_MarshalIndent_license d Hd) as (data & Hm & Hu).
  rewrite Hm.
  destruct (os.MkdirAll (os.Dir filename) 493 fs) as [fs1 [e|]]; [intros H; congruence|].
  intros Hw. rewrite (os.ReadFile_WriteFile _ _ _ _ _ Hw), Hu. reflexivity.
Qed.

(** The key of a generated key pair for an identity is accepted. *)
Lemma VerifyLicense_issued (seed : list byte) (k : Config.t) (id : uuid.UUID)
  (namespaceIDStr : string) :
  keypair_of_seed seed k ->
  VerifyLicense (hex.EncodeToString (Config.PublicKey k)) (uuid.String id)
    (base64.EncodeToString (ed25519.sign (Config.PrivateKey k) (vec_to_list id)))
    namespaceIDStr
  = Done (true, None).
Proof.
  intros Hk. destruct (keypair_sizes _ _ Hk) as [_ Hpub].
  destruct Hk as (Hseed & Hprivk & Hpubk).
  erewrite VerifyLicense_decoded;
    [|apply hex_Decode_Encode|apply uuid_Parse_String|apply base64_Decode_Encode].
  unfold ed25519.Verify. rewrite bool_decide_eq_true_2 by exact Hpub.
  rewrite Hprivk, Hpubk, ed25519.verify_sign by exact Hseed. reflexivity.
Qed.

(** Generate, then verify.  With the configuration of a generated key
    pair and an identifier given with -mac that is made of plain characters
    (printable ASCII other than the quote, the backslash, <, > and &, the
    strings the contract of the JSON codec covers; every MAC address is one),
    a license that the generate command reports as generated is reported
    VALID by the verify command, run with the same identifier on the file
    system the generate command left. *)
Theorem generate_then_verify_valid (configPtr macPtr outputPtr : string)
  (ifs ifs' : list net.Interface * option error) (fs fs' : os.FS)
  (k : Config.t) (seed : list byte) (out : list printed) :
  LoadConfig configPtr fs = Done (Some k, None) ->
  keypair_of_seed seed k ->
  macPtr <> "" -> plain macPtr = true ->
  commandGenerateLicense configPtr macPtr outputPtr ifs fs = Done (out, fs') ->
  In (Println "License generated successfully:") out ->
  commandVerifyLicense outputPtr macPtr ifs' fs'
  = Done [Printf "MAC Address: %s\n" [ArgS macPtr];
          Printf "Device UUID: %s\n"
            [ArgU (MacAddressToUUIDv5 macPtr (Config.NamespaceID k)).1];
          Println "License verification: VALID"].
Proof.
  intros Hload Hk Hmac Hplain. destruct (keypair_sizes _ _ Hk) as [Hpriv _].
  unfold commandGenerateLicense. rewrite Hload. cbn [mbind exec_bind].
  replace (String.eqb macPtr "") with false
    by (symmetry; apply String.eqb_neq, Hmac).
  cbn [negb]. unfold MacAddressToUUIDv5 at 1, GenerateLicenseKey, ed25519.Sign.
  rewrite bool_decide_eq_true_2 by exact Hpriv. cbn [mbind exec_bind].
  set (id := uuid.NewSHA1 (Config.NamespaceID k)
               (bytes_of_string (strings.ReplaceAll macPtr ":" ""))).
  set (key := base64.EncodeToString (ed25519.sign (Config.PrivateKey k) (vec_to_list id))).
  set (d := LicenseData.Build_t macPtr (uuid.String id) key
              (hex.EncodeToString (Config.PublicKey k)) ""
              (uuid.String (Config.NamespaceID k))).
  destruct (SaveLicense d outputPtr fs) as [fs1 [e|]] eqn:Hsave.
  { intros H Hin. apply Done_inj in H.
    assert (out = [Printf "Error saving license: %v\n" [ArgE e]]) as -> by congruence.
    destruct Hin as [H'|[]]. discriminate H'. }
  intros H _. apply Done_inj in H.
  assert (fs1 = fs') as -> by congruence.
  assert (plain_license d) as Hd.
  { split; [exact Hplain|]. split; [apply plain_uuid|].
    split; [apply base64_Encode_plain|]. split; [apply plain_hex|].
    split; [reflexivity|apply plain_uuid]. }
  unfold commandVerifyLicense.
  rewrite (LoadLicense_after_SaveLicense d outputPtr fs fs' Hd Hsave).
  replace (String.eqb macPtr "") with false
    by (symmetry; apply String.eqb_neq, Hmac).
  cbn [negb LicenseData.NamespaceID LicenseData.PublicKey LicenseData.LicenseKey d].
  rewrite uuid_Parse_String. unfold MacAddressToUUIDv5. fold id.
  unfold key. rewrite (VerifyLicense_issued seed k id _ Hk). reflexivity.
Qed.

(** A valid key pair saved without error is loaded as it was. *)
Lemma load_after_save_general (k : Config.t) (filename : string) (fs fs' : os.FS) :
  valid_config k ->
  SaveConfig k filename fs = (fs', None) ->
  LoadConfig filename fs' = Done (Some k, None).
Proof.
  intros Hk Hsave.
  destruct (SaveConfig_written k filename fs fs' Hsave) as (data & Hread & Hjson).
  rewrite (LoadConfig_decoded _ _ _ _ _ _ Hread Hjson
             (hex_Decode_Encode _) (uuid_Parse_String _)).
  rewrite Hk. destruct k; reflexivity.
Qed.

(** The init command.  It leaves an existing configuration file, and the
    random source, untouched; and when it reports success, the file it wrote
    loads to the key pair [GenerateKeyPair] made from the random source. *)
Theorem commandInitConfig_outcome (configPtr : string) (r : rand.Reader) (fs : os.FS) :
  (os.Stat configPtr fs = None ->
   exists line, commandInitConfig configPtr r fs = Done ([line], fs, r))
  /\ (forall (out : list printed) (fs' : os.FS) (r' : rand.Reader),
        commandInitConfig configPtr r fs = Done (out, fs', r') ->
        In (Println "License issuer configuration initialized successfully.") out ->
        exists k,
          GenerateKeyPair r = Done ((Some k, None), r')
          /\ LoadConfig configPtr fs' = Done (Some k, None)).
Proof.
  unfold commandInitConfig. split.
  - intros ->. eexists. reflexivity.
  - intros out fs' r'. destruct (os.Stat configPtr fs) as [e0|].
    2:{ intros H Hin. apply Done_inj in H.
        assert (out = [Printf "Configuration file %s already exists. Delete it first if you want to reinitialize.\n"
                         [ArgS configPtr]]) as -> by congruence.
        destruct Hin as [H'|[]]. discriminate H'. }
    destruct (GenerateKeyPair r) as [[[[k|] err] r1]|msg] eqn:Hgen;
      cbn [mbind exec_bind]; [| |intros H; congruence].
    + destruct (GenerateKeyPair_valid r r1 k err Hgen) as (-> & _ & _ & Hvalid).
      destruct (SaveConfig k configPtr fs) as [fs1 [e|]] eqn:Hsave.
      { intros H Hin. apply Done_inj in H.
        assert (out = [Printf "Error saving configuration: %v\n" [ArgE e]]) as ->
          by congruence.
        destruct Hin as [H'|[]]. discriminate H'. }
      intros H _. apply Done_inj in H.
      assert (fs1 = fs' /\ r1 = r') as [-> ->] by (split; congruence).
      exists k. split; [reflexivity|].
      exact (load_after_save_general k configPtr fs fs' Hvalid Hsave).
    + destruct err as [e|]; [|intros H; congruence].
      intros H Hin. apply Done_inj in H.
      assert (out = [Printf "Error generating configuration: %v\n" [ArgE e]]) as ->
        by congruence.
      destruct Hin as [H'|[]]. discriminate H'.
Qed.

End License.

Lemma LoadLicense_after_SaveLicense_sample :
  LoadLicense (S := Fake.system) (JL := Fake.license_codec) "license.json"
    (SaveLicense (S := Fake.system) (JL := Fake.license_codec) Sample.license
       "license.json" (∅ : gmap string (list byte))).1
  = (Some Sample.license, None).
Proof.
  apply (LoadLicense_after_SaveLicense (SL := Fake_system_laws)
           (JLL := Fake_license_codec_laws) Sample.license "license.json"
           (∅ : gmap string (list byte))).
  - repeat split; vm_compute; reflexivity.
  - vm_compute. reflexivity.
Defined.

Lemma generate_then_verify_valid_sample :
  commandVerifyLicense (E := Fake.scheme) (S := Fake.system) (JL := Fake.license_codec)
    "license.json" Sample.mac ([], None) Sample.licensed_fs
  = Done [Printf "MAC Address: %s\n" [ArgS Sample.mac];
          Printf "Device UUID: %s\n"
            [ArgU (MacAddressToUUIDv5 Sample.mac (Config.NamespaceID Sample.config)).1];
          Println "License verification: VALID"].
Proof.
  apply (generate_then_verify_valid (E := Fake.scheme) (L := Fake_scheme_laws)
           (S := Fake.system) (SL := Fake_system_laws)
           (JC := Fake.config_codec) (JL := Fake.license_codec)
           (JLL := Fake_license_codec_laws)
           "licensor.json" Sample.mac "license.json" ([], None) ([], None)
           Sample.saved_fs Sample.licensed_fs Sample.config (take 32 Sample.entropy)
           [Println "License generated successfully:";
            Printf "  Device ID: %s\n" [ArgS Sample.mac];
            Printf "  Device UUID: %s\n" [ArgU Sample.id];
            Printf "  License Key: %s\n" [ArgS Sample.licenseKey];
            Printf "  License file saved to: %s\n" [ArgS "license.json"]]).
  - vm_compute. reflexivity.
  - repeat split; vm_compute; reflexivity.
  - discriminate.
  - reflexivity.
  - vm_compute. reflexivity.
  - left. reflexivity.
Defined.

Lemma commandInitConfig_outcome_sample :
  (os.Stat (System := Fake.system) "licensor.json" (∅ : gmap string (list byte)) = None ->
   exists line,
     commandInitConfig (E := Fake.scheme) (S := Fake.system) (JC := Fake.config_codec)
       "licensor.json" Sample.entropy (∅ : gmap string (list byte))
     = Done ([line], (∅ : gmap string (list byte)), Sample.entropy))
  /\ (forall (out : list printed) (fs' : gmap string (list byte)) (r' : rand.Reader),
        commandInitConfig (E := Fake.scheme) (S := Fake.system) (JC := Fake.config_codec)
          "licensor.json" Sample.entropy (∅ : gmap string (list byte))
        = Done (out, fs', r') ->
        In (Println "License issuer configuration initialized successfully.") out ->
        exists k,
          GenerateKeyPair (E := Fake.scheme) Sample.entropy = Done ((Some k, None), r')
          /\ LoadConfig (S := Fake.system) (JC := Fake.config_codec) "licensor.json" fs'
             = Done (Some k, None)).
Proof.
  exact (commandInitConfig_outcome (E := Fake.scheme) (L := Fake_scheme_laws)
           (S := Fake.system) (SL := Fake_system_laws)
           (JC := Fake.config_codec) (JCL := Fake_config_codec_laws)
           "licensor.json" Sample.entropy (∅ : gmap string (list byte))).
Defined.

(** ** A changed license key that is still accepted *)

Lemma base64_Encode_app (pre tail : list byte) :
  (length pre mod 3 = 0)%nat ->
  base64.EncodeToString (pre ++ tail)
  = base64.EncodeToString pre +:+ base64.EncodeToString tail.
Proof.
  remember (length pre) as n eqn:Hn. revert pre Hn.
  induction n as [n IH] using lt_wf_ind. intros pre Hn Hmod.
  destruct pre as [|a [|b [|c rest]]]; cbn [length] in Hn; subst n;
    [reflexivity|discriminate|discriminate|].
  change ((a :: b :: c :: rest) ++ tail) with (a :: b :: c :: (rest ++ tail)).
  cbn [base64.EncodeToString]. rewrite !append_String.
  rewrite (IH (length rest)); [reflexivity|lia|reflexivity|].
  replace (S (S (S (length rest)))) with (length rest + 1 * 3)%nat in Hmod by lia.
  rewrite Nat.Div0.mod_add in Hmod. exact Hmod.
Qed.

Lemma flip_bit_app (s1 s2 : string) (i : nat) :
  flip_bit (8 * String.length s1 + i) (s1 +:+ s2) = s1 +:+ flip_bit i s2.
Proof.
  induction s1 as [|c s1 IH]; [reflexivity|].
  rewrite !append_String. cbn [flip_bit String.length].
  destruct (Nat.ltb_spec (8 * S (String.length s1) + i) 8) as [Hlt|Hge]; [lia|].
  replace (8 * S (String.length s1) + i - 8)%nat with (8 * String.length s1 + i)%nat
    by lia.
  rewrite IH. reflexivity.
Qed.

Lemma append_inv_head (s a b : string) : s +:+ a = s +:+ b -> a = b.
Proof.
  induction s as [|c s IH]; [trivial|].
  rewrite !append_String. intros H. apply IH. congruence.
Qed.

Lemma spare_bit_le (b : byte) : (spare_bit b <= 6)%nat.
Proof. destruct b; vm_compute; lia. Qed.

(** The last group of a 64-byte signature, with a spare bit changed, is read
    as before. *)
Lemma base64_last_group_spare (b : byte) :
  base64.decode (flip_bit (8 + spare_bit b) (base64.EncodeToString [b])) [] = ([b], None)
  /\ String.eqb (flip_bit (8 + spare_bit b) (base64.EncodeToString [b]))
       (base64.EncodeToString [b]) = false.
Proof. destruct b; split; vm_compute; reflexivity. Qed.

(** License keys are malleable.  For every generated key pair and every
    identifier, one bit of the issued license key can be changed so that the
    key is another text and [VerifyLicense] still answers [true]: base64
    decoding, which is not strict, drops the four trailing bits of the last
    group. *)
Theorem changed_key_still_accepted {E : ed25519.Scheme} {L : ed25519.SchemeLaws E}
  (rnd rnd' : rand.Reader) (k : Config.t) (r : string) :
  GenerateKeyPair rnd = Done ((Some k, None), rnd') ->
  let id := (MacAddressToUUIDv5 r (Config.NamespaceID k)).1 in
  exists (licenseKey : string) (i : nat),
    GenerateLicenseKey k id = Done (licenseKey, None)
    /\ (i < 8 * String.length licenseKey)%nat
    /\ flip_bit i licenseKey <> licenseKey
    /\ VerifyLicense (hex.EncodeToString (Config.PublicKey k)) (uuid.String id)
         (flip_bit i licenseKey) (uuid.String (Config.NamespaceID k))
       = Done (true, None).
Proof.
  intros Hgen id.
  destruct (GenerateKeyPair_inv _ _ _ _ Hgen) as [seed Hk].
  destruct (keypair_sizes _ _ Hk) as [Hpriv Hpub].
  set (sig := ed25519.sign (Config.PrivateKey k) (vec_to_list id)).
  assert (length sig = 64%nat) as Hsig by (apply ed25519.sign_length, Hpriv).
  assert (exists pre b, sig = pre ++ [b] /\ length pre = 63%nat) as (pre & b & Hsplit & Hpre).
  { exists (take 63 sig). destruct (drop 63 sig) as [|b [|b' rest]] eqn:Hdrop.
    - apply (f_equal length) in Hdrop. rewrite length_drop in Hdrop. cbn in Hdrop. lia.
    - exists b. split; [|rewrite length_take; lia].
      rewrite <- Hdrop. symmetry. apply take_drop.
    - apply (f_equal length) in Hdrop. rewrite length_drop in Hdrop. cbn in Hdrop. lia. }
  assert ((length pre mod 3)%nat = 0%nat) as Hmod by (rewrite Hpre; reflexivity).
  destruct (base64_last_group_spare b) as [Hdec Hneq].
  exists (base64.EncodeToString sig), (8 * 84 + (8 + spare_bit b))%nat.
  assert (base64.EncodeToString sig
          = base64.EncodeToString pre +:+ base64.EncodeToString [b]) as Hkey
    by (rewrite Hsplit; apply base64_Encode_app, Hmod).
  assert (String.length (base64.EncodeToString pre) = 84%nat) as Hlen
    by (rewrite base64_Encode_length, Hpre; reflexivity).
  assert (flip_bit (8 * 84 + (8 + spare_bit b)) (base64.EncodeToString sig)
          = base64.EncodeToString pre
            +:+ flip_bit (8 + spare_bit b) (base64.EncodeToString [b])) as Hflip.
  { rewrite Hkey, <- Hlen. apply flip_bit_app. }
  split; [|split; [|split]].
  - unfold GenerateLicenseKey, ed25519.Sign.
    rewrite bool_decide_eq_true_2 by exact Hpriv. reflexivity.
  - rewrite base64_Encode_length, Hsig. pose proof (spare_bit_le b).
    change ((64 + 2) / 3)%nat with 22%nat. lia.
  - rewrite Hflip, Hkey. intros Heq. apply append_inv_head in Heq.
    rewrite Heq, String.eqb_refl in Hneq. discriminate.
  - assert (base64.DecodeString
              (flip_bit (8 * 84 + (8 + spare_bit b)) (base64.EncodeToString sig))
            = (sig, None)) as Hdecoded.
    { unfold base64.DecodeString.
      rewrite Hflip, base64_decode_groups, Hdec by exact Hmod.
      cbn [fst snd]. rewrite <- Hsplit. reflexivity. }
    rewrite (VerifyLicense_decoded _ _ _ _ _ _ _
               (hex_Decode_Encode _) (uuid_Parse_String _) Hdecoded).
    unfold ed25519.Verify. rewrite bool_decide_eq_true_2 by exact Hpub.
    destruct Hk as (Hseed & Hprivk & Hpubk). unfold sig.
    rewrite Hprivk, Hpubk, ed25519.verify_sign by exact Hseed. reflexivity.
Qed.

Lemma changed_key_still_accepted_sample :
  exists (licenseKey : string) (i : nat),
    GenerateLicenseKey (E := Fake.scheme) Sample.config
      (MacAddressToUUIDv5 Sample.mac (Config.NamespaceID Sample.config)).1
    = Done (licenseKey, None)
    /\ (i < 8 * String.length licenseKey)%nat
    /\ flip_bit i licenseKey <> licenseKey
    /\ VerifyLicense (E := Fake.scheme)
         (hex.EncodeToString (Config.PublicKey Sample.config))
         (uuid.String (MacAddressToUUIDv5 Sample.mac (Config.NamespaceID Sample.config)).1)
         (flip_bit i licenseKey) (uuid.String (Config.NamespaceID Sample.config))
       = Done (true, None).
Proof.
  apply (changed_key_still_accepted (L := Fake_scheme_laws) Sample.entropy []
           Sample.config Sample.mac).
  vm_compute. reflexivity.
Defined.

(** ** What the commands leave behind *)

Section Written.
Context {E : ed25519.Scheme}.
Context {S : os.System} {SL : os.SystemLaws S}.
Context {JC : json.Codec configData.t} {JL : json.Codec LicenseData.t}.
Context {JLL : LicenseCodecLaws JL}.

(** Every Config that [LoadConfig] returns comes without an error, has a
    private key of at least 32 bytes and a public key of exactly 32 bytes
    (the private key need not have 64). *)
Theorem LoadConfig_key_sizes (filename : string) (fs : os.FS) (k : Config.t)
  (err : option error) :
  LoadConfig filename fs = Done (Some k, err) ->
  err = None
  /\ (32 <= length (Config.PrivateKey k))%nat
  /\ length (Config.PublicKey k) = 32%nat.
Proof.
  unfold LoadConfig.
  destruct (os.ReadFile filename fs) as [data [e|]]; [intros H; congruence|].
  destruct (json.Unmarshal data configData.zero) as [d [e|]]; [intros H; congruence|].
  destruct (hex.DecodeString (configData.PrivateKey d)) as [priv [e|]];
    [intros H; congruence|].
  destruct (uuid.Parse (configData.NamespaceID d)) as [ns [e|]]; [intros H; congruence|].
  unfold ed25519.Public.
  destruct (Nat.ltb_spec (length priv) 32) as [Hlt|Hge]; cbn [mbind exec_bind];
    intros H; [congruence|].
  apply Done_inj in H.
  assert (k = {| Config.PrivateKey := priv;
                 Config.PublicKey :=
                   vec_to_list (array_of ed25519.PublicKeySize (drop 32 priv));
                 Config.NamespaceID := ns |} /\ err = None) as [-> ->]
    by (split; congruence).
  split; [reflexivity|]. split; [exact Hge|]. apply length_vec_to_list.
Qed.

(** The license the generate command writes.  When the command reports a
    license as generated for an identifier given with -mac that is made of
    plain characters (printable ASCII other than the quote, the backslash,
    <, > and &, the strings the contract of the JSON codec covers), the
    output file loads to a record with that identifier, the text of the identity derived
    from it, the hex text of the public key, the text of the namespace, a
    license key that decodes to the signature of the identity - and an empty
    private key: the private key never goes into a license. *)
Theorem commandGenerateLicense_writes (configPtr macPtr outputPtr : string)
  (ifs : list net.Interface * option error) (fs fs' : os.FS) (out : list printed) :
  macPtr <> "" -> plain macPtr = true ->
  commandGenerateLicense configPtr macPtr outputPtr ifs fs = Done (out, fs') ->
  In (Println "License generated successfully:") out ->
  exists (k : Config.t) (d : LicenseData.t),
    LoadConfig configPtr fs = Done (Some k, None)
    /\ LoadLicense outputPtr fs' = (Some d, None)
    /\ LicenseData.DeviceID d = macPtr
    /\ LicenseData.DeviceUUID d
       = uuid.String (MacAddressToUUIDv5 macPtr (Config.NamespaceID k)).1
    /\ base64.DecodeString (LicenseData.LicenseKey d)
       = (ed25519.sign (Config.PrivateKey k)
            (vec_to_list (MacAddressToUUIDv5 macPtr (Config.NamespaceID k)).1), None)
    /\ LicenseData.PublicKey d = hex.EncodeToString (Config.PublicKey k)
    /\ LicenseData.PrivateKey d = ""
    /\ LicenseData.NamespaceID d = uuid.String (Config.NamespaceID k).
Proof.
  intros Hmac Hplain. unfold commandGenerateLicense.
  assert (forall text (e : error),
            ~ In (Println "License generated successfully:") [Printf text [ArgE e]])
    as Herr.
  { intros text e [H|[]]. discriminate H. }
  destruct (LoadConfig configPtr fs) as [[[k|] [e|]]|msg] eqn:Hload;
    cbn [mbind exec_bind]; try (intros H; congruence);
    try (intros H Hin; apply Done_inj in H;
         assert (out = [Printf "Error loading configuration: %v\n" [ArgE e]]) as ->
           by congruence;
         destruct (Herr _ _ Hin)).
  replace (String.eqb macPtr "") with false
    by (symmetry; apply String.eqb_neq, Hmac).
  cbn [negb]. unfold MacAddressToUUIDv5, GenerateLicenseKey, ed25519.Sign.
  destruct (bool_decide (length (Config.PrivateKey k) = ed25519.PrivateKeySize));
    cbn [mbind exec_bind]; [|intros H; congruence].
  set (id := uuid.NewSHA1 (Config.NamespaceID k)
               (bytes_of_string (strings.ReplaceAll macPtr ":" ""))).
  set (key := base64.EncodeToString (ed25519.sign (Config.PrivateKey k) (vec_to_list id))).
  set (d := LicenseData.Build_t macPtr (uuid.String id) key
              (hex.EncodeToString (Config.PublicKey k)) ""
              (uuid.String (Config.NamespaceID k))).
  destruct (SaveLicense d outputPtr fs) as [fs1 [e|]] eqn:Hsave.
  { intros H Hin. apply Done_inj in H.
    assert (out = [Printf "Error saving license: %v\n" [ArgE e]]) as -> by congruence.
    destruct (Herr _ _ Hin). }
  intros H _. apply Done_inj in H.
  assert (fs1 = fs') as -> by congruence.
  assert (plain_license d) as Hd.
  { split; [exact Hplain|]. split; [apply plain_uuid|].
    split; [apply base64_Encode_plain|]. split; [apply plain_hex|].
    split; [reflexivity|apply plain_uuid]. }
  exists k, d. split; [reflexivity|].
  split; [exact (LoadLicense_after_SaveLicense d outputPtr fs fs' Hd Hsave)|].
  repeat split. apply base64_Decode_Encode.
Qed.

End Written.

Lemma LoadConfig_key_sizes_sample :
  (None : option error) = None
  /\ (32 <= length (Config.PrivateKey Sample.config))%nat
  /\ length (Config.PublicKey Sample.config) = 32%nat.
Proof.
  apply (LoadConfig_key_sizes (S := Fake.system) (JC := Fake.config_codec)
           "licensor.json" Sample.saved_fs Sample.config None).
  vm_compute. reflexivity.
Defined.

Lemma commandGenerateLicense_writes_sample :
  exists (k : Config.t) (d : LicenseData.t),
    LoadConfig (S := Fake.system) (JC := Fake.config_codec) "licensor.json" Sample.saved_fs
    = Done (Some k, None)
    /\ LoadLicense (S := Fake.system) (JL := Fake.license_codec) "license.json"
         Sample.licensed_fs = (Some d, None)
    /\ LicenseData.DeviceID d = Sample.mac
    /\ LicenseData.DeviceUUID d
       = uuid.String (MacAddressToUUIDv5 Sample.mac (Config.NamespaceID k)).1
    /\ base64.DecodeString (LicenseData.LicenseKey d)
       = (ed25519.sign (Scheme := Fake.scheme) (Config.PrivateKey k)
            (vec_to_list (MacAddressToUUIDv5 Sample.mac (Config.NamespaceID k)).1), None)
    /\ LicenseData.PublicKey d = hex.EncodeToString (Config.PublicKey k)
    /\ LicenseData.PrivateKey d = ""
    /\ LicenseData.NamespaceID d = uuid.String (Config.NamespaceID k).
Proof.
  apply (commandGenerateLicense_writes (E := Fake.scheme)
           (S := Fake.system) (SL := Fake_system_laws)
           (JC := Fake.config_codec) (JL := Fake.license_codec)
           (JLL := Fake_license_codec_laws)
           "licensor.json" Sample.mac "license.json" ([], None)
           Sample.saved_fs Sample.licensed_fs
           [Println "License generated successfully:";
            Printf "  Device ID: %s\n" [ArgS Sample.mac];
            Printf "  Device UUID: %s\n" [ArgU Sample.id];
            Printf "  License Key: %s\n" [ArgS Sample.licenseKey];
            Printf "  License file saved to: %s\n" [ArgS "license.json"]]).
  - discriminate.
  - reflexivity.
  - vm_compute. reflexivity.
  - left. reflexivity.
Defined.
